(** * The "poll until ready" loop of the flaky-test guide

  Shallow embedding of the fixed example in [.circleci/fix-flaky-test.md]
  (lines 90-99):

<<
    await new Promise(resolve => {
      const checkInitialization = () => {
        if (openmct.components && openmct.components.ObjectView) {
          resolve();
        } else {
          setTimeout(checkInitialization, 50);
        }
      };
      checkInitialization();
    });
>>

  The development has three layers: the JavaScript values the condition
  inspects, the event-loop state the loop acts on (clock, timer queue,
  promise), and the run of the loop interleaved with the host application
  that owns [openmct]. *)

From Stdlib Require Import ZArith List String Bool Arith Lia Sorted.
Import ListNotations.
Open Scope Z_scope.
Set Warnings "-register-all".

(** ** JavaScript values *)

Module Js.

(** The values the condition can meet.  Numbers are kept integral (no
    NaN); objects are plain records of own data properties. *)
Inductive value : Type :=
| VUndefined
| VNull
| VBool (b : bool)
| VNumber (z : Z)
| VString (s : string)
| VObject (props : list (string * value)).

Inductive error : Type :=
| TypeError
| Thrown (v : value).

(** Completion of an expression: a value, or an exception. *)
Inductive completion (A : Type) : Type :=
| Normal (a : A)
| Throw (e : error).
Arguments Normal {A} a.
Arguments Throw {A} e.

(** ToBoolean, as applied by [if] and [&&]. *)
Definition truthy (v : value) : bool :=
  match v with
  | VUndefined | VNull => false
  | VBool b => b
  | VNumber z => negb (z =? 0)
  | VString s => negb (String.eqb s EmptyString)
  | VObject _ => true
  end.

Fixpoint lookup (k : string) (props : list (string * value)) : value :=
  match props with
  | [] => VUndefined
  | (k', v) :: rest => if String.eqb k k' then v else lookup k rest
  end.

(** Member access [v.k]: a TypeError on [undefined] and [null], the own
    property of an object ([undefined] when absent), and [undefined] on
    the other primitives for the two names read here. *)
Definition getProp (v : value) (k : string) : completion value :=
  match v with
  | VUndefined | VNull => Throw TypeError
  | VObject props => Normal (lookup k props)
  | VBool _ | VNumber _ | VString _ => Normal VUndefined
  end.

End Js.
Import Js.

(** ** The event loop state and the loop itself *)

Section Waiter.

(** The state owned by the caller, which the predicate closes over. *)
Context {Heap : Type}.

(** The request: the predicate polled.  A predicate is called on the
    caller-owned state and returns a value or throws; like any function
    it may also write that state, so it yields the state it leaves
    behind.  The guide's loop takes nothing else: its delay is the
    literal 50 and it has neither a deadline nor a cancellation input. *)
Record WaitRequest : Type := {
  predicate : Heap -> Heap * completion value
}.

Inductive PromiseState : Type :=
| Pending
| Fulfilled
| Rejected (e : error).

(** [now] is the time in ms since the call; [timers] holds the due times
    of the pending [setTimeout(checkInitialization, 50)] entries, oldest
    first; [evals] counts evaluations of the condition; [settlements]
    counts calls that settle the promise ([resolve()], or the rejection
    the Promise constructor performs when its executor throws);
    [uncaught] logs exceptions that escape a timer callback. *)
Record Loop : Type := {
  heap : Heap;
  now : Z;
  timers : list Z;
  promise : PromiseState;
  evals : nat;
  settlements : nat;
  uncaught : list error
}.

(** The delay of [setTimeout(checkInitialization, 50)]. *)
Definition pollDelay : Z := 50.

(** [resolve()]: settles a pending promise, a no-op on a settled one. *)
Definition resolve (s : Loop) : Loop :=
  {| heap := heap s; now := now s; timers := timers s;
     promise := match promise s with Pending => Fulfilled | p => p end;
     evals := evals s; settlements := S (settlements s);
     uncaught := uncaught s |}.

(** The Promise constructor's handling of an executor that throws. *)
Definition reject (e : error) (s : Loop) : Loop :=
  {| heap := heap s; now := now s; timers := timers s;
     promise := match promise s with Pending => Rejected e | p => p end;
     evals := evals s; settlements := S (settlements s);
     uncaught := uncaught s |}.

(** [setTimeout(checkInitialization, delay)]. *)
Definition setTimeout (delay : Z) (s : Loop) : Loop :=
  {| heap := heap s; now := now s;
     timers := timers s ++ [now s + delay];
     promise := promise s; evals := evals s;
     settlements := settlements s; uncaught := uncaught s |}.

Definition countEval (s : Loop) : Loop :=
  {| heap := heap s; now := now s; timers := timers s;
     promise := promise s; evals := S (evals s);
     settlements := settlements s; uncaught := uncaught s |}.

Definition report (e : error) (s : Loop) : Loop :=
  {| heap := heap s; now := now s; timers := timers s;
     promise := promise s; evals := evals s;
     settlements := settlements s; uncaught := e :: uncaught s |}.

(** A timer task starts: the timer leaves the queue and the clock is at
    its due time, or [late] ms past it: [setTimeout] promises no more
    than "not before". *)
Definition advance (due : Z) (rest : list Z) (late : Z) (s : Loop) : Loop :=
  {| heap := heap s; now := Z.max (now s) due + Z.max 0 late; timers := rest;
     promise := promise s; evals := evals s;
     settlements := settlements s; uncaught := uncaught s |}.

(** What a call of the predicate leaves of the caller-owned state. *)
Definition written (h' : Heap) (s : Loop) : Loop :=
  {| heap := h'; now := now s; timers := timers s;
     promise := promise s; evals := evals s;
     settlements := settlements s; uncaught := uncaught s |}.

Variable r : WaitRequest.

(** One call of [checkInitialization]: the new state, and the exception
    when the condition throws. *)
Definition checkInitialization (s : Loop) : Loop * option error :=
  let call := predicate r (heap s) in
  let s1 := countEval (written (fst call) s) in
  match snd call with
  | Throw e => (s1, Some e)
  | Normal v =>
      if truthy v then (resolve s1, None)
      else (setTimeout pollDelay s1, None)
  end.

(** [new Promise(resolve => { ...; checkInitialization(); })]: the
    executor runs synchronously; an exception out of it rejects. *)
Definition start (h : Heap) : Loop :=
  let s0 := {| heap := h; now := 0; timers := []; promise := Pending;
               evals := 0; settlements := 0; uncaught := [] |} in
  match checkInitialization s0 with
  | (s, None) => s
  | (s, Some e) => reject e s
  end.

(** The event loop runs the oldest pending timer, [late] ms after its
    due time; an exception out of the callback is reported and nothing
    is rescheduled.  With no timer pending the loop is idle. *)
Definition fire (late : Z) (s : Loop) : Loop :=
  match timers s with
  | [] => s
  | due :: rest =>
      match checkInitialization (advance due rest late s) with
      | (s', None) => s'
      | (s', Some e) => report e s'
      end
  end.

(** A task of the host application, between two timer tasks: it may
    write the caller-owned state. *)
Definition hostStep (f : Heap -> Heap) (s : Loop) : Loop :=
  {| heap := f (heap s); now := now s; timers := timers s;
     promise := promise s; evals := evals s;
     settlements := settlements s; uncaught := uncaught s |}.

(** The run: the synchronous start, then [n] rounds of one host task
    followed by one turn of the timer queue; [lag m] is how late the
    timer of round [m] runs. *)
Fixpoint run (lag : nat -> Z) (host : nat -> Heap -> Heap) (h : Heap)
    (n : nat) : Loop :=
  match n with
  | O => start h
  | S m => fire (lag m) (hostStep (host m) (run lag host h m))
  end.

(** The caller-owned state as the host alone makes it evolve. *)
Fixpoint hostHeap (host : nat -> Heap -> Heap) (h : Heap) (n : nat) : Heap :=
  match n with
  | O => h
  | S m => host m (hostHeap host h m)
  end.

(** The caller-owned state at the start of evaluation number [i] (from
    0), were the loop to poll that long: what the host's tasks and the
    earlier calls of the predicate have made of it. *)
Fixpoint seen (host : nat -> Heap -> Heap) (h : Heap) (i : nat) : Heap :=
  match i with
  | O => h
  | S j => host j (fst (predicate r (seen host h j)))
  end.

(** What the [if] makes of the condition on a given heap. *)
Inductive Verdict : Type :=
| Truthy
| Falsy
| Throws (e : error).

Definition verdictOn (h : Heap) : Verdict :=
  match snd (predicate r h) with
  | Throw e => Throws e
  | Normal v => if truthy v then Truthy else Falsy
  end.

(** The verdict of evaluation number [i] (from 0), were it to happen. *)
Definition verdict (host : nat -> Heap -> Heap) (h : Heap) (i : nat) : Verdict :=
  verdictOn (seen host h i).

(** The outcome vocabulary of the specification, and the outcome a
    state of the promise amounts to.  [resolve()] carries no value and
    there is no other settling call, so only two of them arise. *)
Inductive WaitOutcome : Type :=
| Satisfied
| TimedOut
| Cancelled
| InvalidArgument
| PredicateError (e : error).

Definition outcome (s : Loop) : option WaitOutcome :=
  match promise s with
  | Pending => None
  | Fulfilled => Some Satisfied
  | Rejected e => Some (PredicateError e)
  end.

End Waiter.

Arguments WaitRequest Heap : clear implicits.
Arguments Loop Heap : clear implicits.

(** ** The guide's condition *)

(** [openmct.components && openmct.components.ObjectView], on the value of
    the variable [openmct].  [a && b] yields [a] when [a] is falsy and
    evaluates [b] otherwise; the right operand reads [openmct.components]
    again. *)
Definition componentsReady (openmct : value) : completion value :=
  match getProp openmct "components" with
  | Throw e => Throw e
  | Normal a =>
      if truthy a then
        match getProp openmct "components" with
        | Throw e => Throw e
        | Normal c => getProp c "ObjectView"
        end
      else Normal a
  end.

(** A predicate that only reads the caller-owned state. *)
Definition readOnly {Heap : Type} (f : Heap -> completion value)
  : Heap -> Heap * completion value :=
  fun h => (h, f h).

(** The guide's wait, with the caller-owned state being the value of
    [openmct]; its condition only reads it. *)
Definition guideRequest : WaitRequest value :=
  {| predicate := readOnly componentsReady |}.

(** Values of [openmct] at various stages of the application's start. *)
Definition bareApp : value := VObject [].
Definition halfApp : value := VObject [("components"%string, VObject [])].
Definition readyApp : value :=
  VObject [("components"%string,
            VObject [("ObjectView"%string, VObject [])])].

(** Hosts: one that never writes, one that installs the value [v] in its
    task number [k] (so that evaluation [k+1] is the first to see it). *)
Definition idleHost {Heap : Type} : nat -> Heap -> Heap := fun _ h => h.

(** Timers that are never late, and timers that are 3 ms late in every
    round. *)
Definition punctual : nat -> Z := fun _ => 0.

Definition sluggish : nat -> Z := fun _ => 3.

Definition writeAt {Heap : Type} (k : nat) (v : Heap) : nat -> Heap -> Heap :=
  fun i h => if Nat.eqb i k then v else h.

(** ** Vocabulary of the statements *)

Section Vocabulary.

Context {Heap : Type}.
Variable r : WaitRequest Heap.
Variable lag : nat -> Z.
Variable host : nat -> Heap -> Heap.
Variable h : Heap.

(** The predicate returns false at every evaluation. *)
Definition neverTrue : Prop :=
  forall i, verdict r host h i = Falsy.

(** The predicate returns true at no evaluation: each time it returns
    false or throws. *)
Definition neverReturnsTrue : Prop :=
  forall i, verdict r host h i <> Truthy.

(** Evaluation [k] is the first that does not return false, and it
    returns true. *)
Definition firstTrueAt (k : nat) : Prop :=
  (forall i, (i < k)%nat -> verdict r host h i = Falsy) /\
  verdict r host h k = Truthy.

(** Evaluation [k] is the first that does not return false, and it
    throws [e]. *)
Definition firstThrowAt (k : nat) (e : error) : Prop :=
  (forall i, (i < k)%nat -> verdict r host h i = Falsy) /\
  verdict r host h k = Throws e.

(** The wait comes to an outcome. *)
Definition settles : Prop :=
  exists n, outcome (run r lag host h n) <> None.

(** The time of evaluation number [n] while the loop polls: each round
    adds the delay and the lateness of its timer. *)
Fixpoint clockAt (n : nat) : Z :=
  match n with
  | O => 0
  | S m => clockAt m + pollDelay + Z.max 0 (lag m)
  end.

(** The host's tasks number [k], ..., [k + m - 1] in a row. *)
Fixpoint hostTasks (k m : nat) (x : Heap) : Heap :=
  match m with
  | O => x
  | S j => host (k + j) (hostTasks k j x)
  end.

(** The caller-owned state after round [n] when evaluation [k], [k <= n],
    was the last: what that call of the predicate left, and the host's
    tasks since. *)
Definition heapSince (k n : nat) : Heap :=
  hostTasks k (n - k) (fst (predicate r (seen r host h k))).

(** The four shapes a run can have after [n] rounds: still polling;
    fulfilled by evaluation [k]; rejected by the first evaluation;
    stranded by an exception out of timer callback [k]. *)
Definition pollingAt (n : nat) : Loop Heap :=
  {| heap := fst (predicate r (seen r host h n)); now := clockAt n;
     timers := [clockAt n + pollDelay]; promise := Pending;
     evals := S n; settlements := 0; uncaught := [] |}.

Definition fulfilledAt (k n : nat) : Loop Heap :=
  {| heap := heapSince k n; now := clockAt k;
     timers := []; promise := Fulfilled;
     evals := S k; settlements := 1; uncaught := [] |}.

Definition rejectedAt (e : error) (n : nat) : Loop Heap :=
  {| heap := heapSince 0 n; now := 0;
     timers := []; promise := Rejected e;
     evals := 1; settlements := 1; uncaught := [] |}.

Definition strandedAt (k : nat) (e : error) (n : nat) : Loop Heap :=
  {| heap := heapSince k n; now := clockAt k;
     timers := []; promise := Pending;
     evals := S k; settlements := 0; uncaught := [e] |}.

Inductive RunShape (n : nat) (s : Loop Heap) : Prop :=
| ShapePolling :
    (forall i, (i <= n)%nat -> verdict r host h i = Falsy) ->
    s = pollingAt n -> RunShape n s
| ShapeFulfilled (k : nat) :
    (k <= n)%nat -> firstTrueAt k ->
    s = fulfilledAt k n -> RunShape n s
| ShapeRejected (e : error) :
    verdict r host h 0 = Throws e ->
    s = rejectedAt e n -> RunShape n s
| ShapeStranded (k : nat) (e : error) :
    (0 < k <= n)%nat -> firstThrowAt k e ->
    s = strandedAt k e n -> RunShape n s.

End Vocabulary.

(** Further concrete inputs.  [stalledApp]: the component table exists
    but [ObjectView] is [null].  [lostApp]: [ObjectView] is the number 0.
    [countingRequest]: a predicate over a counter that adds one to it at
    each call and is true once it has been called three times. *)
Definition stalledApp : value :=
  VObject [("components"%string, VObject [("ObjectView"%string, VNull)])].

Definition lostApp : value :=
  VObject [("components"%string,
            VObject [("ObjectView"%string, VNumber 0)])].

Definition countingRequest : WaitRequest nat :=
  {| predicate := fun c => (S c, Normal (VBool (Nat.leb 2 c))) |}.

(** ** The expectations that follow the wait *)

(** Jasmine's [toBeDefined]: the actual value is not [undefined]. *)
Definition toBeDefined (v : value) : bool :=
  match v with
  | VUndefined => false
  | _ => true
  end.

(** [expect(openmct.components).toBeDefined();
     expect(openmct.components.ObjectView).toBeDefined();]
    after the wait: whether both expectations pass, or the exception of
    a member access. *)
Definition componentsExpectations (openmct : value) : completion bool :=
  match getProp openmct "components" with
  | Throw e => Throw e
  | Normal c =>
      match getProp openmct "components" with
      | Throw e => Throw e
      | Normal c' =>
          match getProp c' "ObjectView" with
          | Throw e => Throw e
          | Normal o => Normal (toBeDefined c && toBeDefined o)
          end
      end
  end.

(** ** A queue of timers with callbacks

    The tests of [src/flaky-tests/FlakyTestsSpec.js] and the second
    example of the guide pass closures to [setTimeout].  A test is given
    by the type of its variables, the type of its closures and the body
    of each closure; the queue below runs them.  Timers run in the order
    of their due times, and timers with the same due time in the order
    of their creation; a timer runs at its due time exactly (the clock
    is ideal) and a negative delay counts as 0. *)

Module EventLoop.
Section Defs.

Context {St Cb : Type}.

(** The body of a closure, run at a given time on the variables: the
    new variables and the [setTimeout] calls made, in order, each a
    delay and a closure. *)
Variable exec : Cb -> Z -> St -> St * list (Z * Cb).

Record Timer : Type := { due : Z; cb : Cb }.

Record World : Type := { clock : Z; queue : list Timer; state : St }.

(** The queue is kept in firing order: a new timer goes behind every
    timer that is due no later than itself. *)
Fixpoint enqueue (t : Timer) (q : list Timer) : list Timer :=
  match q with
  | [] => [t]
  | u :: q' => if due t <? due u then t :: u :: q' else u :: enqueue t q'
  end.

Definition timerOf (now : Z) (call : Z * Cb) : Timer :=
  {| due := now + Z.max 0 (fst call); cb := snd call |}.

Definition schedule (now : Z) (calls : list (Z * Cb)) (q : list Timer)
  : list Timer :=
  fold_left (fun q' call => enqueue (timerOf now call) q') calls q.

(** One turn of the loop: the first timer of the queue runs at its due
    time. *)
Definition tick (w : World) : World :=
  match queue w with
  | [] => w
  | t :: q =>
      let now := Z.max (clock w) (due t) in
      let (s, calls) := exec (cb t) now (state w) in
      {| clock := now; queue := schedule now calls q; state := s |}
  end.

Fixpoint ticks (n : nat) (w : World) : World :=
  match n with
  | O => w
  | S m => ticks m (tick w)
  end.

(** The world a test body leaves behind: its variables, and the timers
    for the [setTimeout] calls it made, all at time 0. *)
Definition boot (s : St) (calls : list (Z * Cb)) : World :=
  {| clock := 0; queue := schedule 0 calls []; state := s |}.

(** Running the timers of a list in order, for closures that make no
    [setTimeout] call. *)
Definition play1 (cs : Z * St) (t : Timer) : Z * St :=
  let now := Z.max (fst cs) (due t) in
  (now, fst (exec (cb t) now (snd cs))).

Definition play (q : list Timer) (cs : Z * St) : Z * St :=
  fold_left play1 q cs.

(** A closure that makes no [setTimeout] call. *)
Definition quiet (c : Cb) : Prop :=
  forall now s, snd (exec c now s) = [].

End Defs.

Arguments Timer Cb : clear implicits.
Arguments World St Cb : clear implicits.

End EventLoop.

(** ** The mock event emitter (second example of the guide, test 2) *)

Module Emitter.

(** An entry [{ event, callback }] of the [listeners] array.  A callback
    receives the data and returns or throws; it has no access to the
    variables of the test. *)
Record Listener : Type := {
  event : string;
  callback : value -> completion unit
}.

(** The variables the closures share: the emitter's [listeners],
    [eventCount] and [lastEventTime]; the number of promises handed to
    [Promise.all] that are not resolved yet; the labels of the failed
    expectations; whether the test has completed ([done()] called, or
    the async test function returned); the exceptions that escaped a
    timer callback. *)
Record Vars : Type := {
  listeners : list Listener;
  eventCount : nat;
  lastEventTime : Z;
  unresolved : nat;
  failures : list string;
  completed : bool;
  escaped : list error
}.

Definition initial : Vars :=
  {| listeners := []; eventCount := 0; lastEventTime := 0; unresolved := 0;
     failures := []; completed := false; escaped := [] |}.

(** [on]: [this.listeners.push({ event, callback })]. *)
Definition on (ev : string) (f : value -> completion unit) (s : Vars) : Vars :=
  {| listeners := listeners s ++ [{| event := ev; callback := f |}];
     eventCount := eventCount s; lastEventTime := lastEventTime s;
     unresolved := unresolved s; failures := failures s;
     completed := completed s; escaped := escaped s |}.

(** The closures given to [setTimeout]: the delivery to one listener, in
    the first form of [emit] and in the fixed one (which also resolves
    the listener's promise), and the check of the first form of the
    test. *)
Inductive Closure : Type :=
| Deliver (l : Listener) (data : value)
| DeliverResolve (l : Listener) (data : value)
| CheckEarly.

(** [this.listeners.filter(l => l.event === event)]. *)
Definition matching (ev : string) (s : Vars) : list Listener :=
  filter (fun l => String.eqb (event l) ev) (listeners s).

(** One [setTimeout] call per listener, in order; [rand i] is the delay
    drawn for call number [i], the value of [Math.random() * 100 + 20]
    as [setTimeout] takes it (whole milliseconds). *)
Fixpoint withDelays (mk : Listener -> Closure) (rand : nat -> Z) (i : nat)
    (ls : list Listener) : list (Z * Closure) :=
  match ls with
  | [] => []
  | l :: ls' => (rand i, mk l) :: withDelays mk rand (S i) ls'
  end.

(** [emit], first form: the [setTimeout] calls it makes. *)
Definition emit (ev : string) (data : value) (rand : nat -> Z) (s : Vars)
  : list (Z * Closure) :=
  withDelays (fun l => Deliver l data) rand 0 (matching ev s).

(** [emit], fixed form: the [setTimeout] calls of the promise executors
    it maps over the listeners. *)
Definition emitAsync (ev : string) (data : value) (rand : nat -> Z) (s : Vars)
  : list (Z * Closure) :=
  withDelays (fun l => DeliverResolve l data) rand 0 (matching ev s).

(** [eventCount++; lastEventTime = Date.now();] *)
Definition bump (time : Z) (s : Vars) : Vars :=
  {| listeners := listeners s; eventCount := S (eventCount s);
     lastEventTime := time; unresolved := unresolved s;
     failures := failures s; completed := completed s;
     escaped := escaped s |}.

Definition escape (e : error) (s : Vars) : Vars :=
  {| listeners := listeners s; eventCount := eventCount s;
     lastEventTime := lastEventTime s; unresolved := unresolved s;
     failures := failures s; completed := completed s;
     escaped := e :: escaped s |}.

(** [expect(eventCount).toBe(3); expect(lastEventTime).toBeGreaterThan(0);]
    and then the end of the test ([done()], or the return of the async
    function).  A failed expectation is recorded and the test goes on. *)
Definition failed (s : Vars) : list string :=
  (if Nat.eqb (eventCount s) 3 then [] else ["eventCount"%string]) ++
  (if 0 <? lastEventTime s then [] else ["lastEventTime"%string]).

Definition expectAndFinish (s : Vars) : Vars :=
  {| listeners := listeners s; eventCount := eventCount s;
     lastEventTime := lastEventTime s; unresolved := unresolved s;
     failures := failures s ++ failed s; completed := true;
     escaped := escaped s |}.

(** [resolve()] of one of the promises under [Promise.all]; when the
    last one is resolved, the two [await]s continue and the expectations
    run. *)
Definition resolveOne (s : Vars) : Vars :=
  let s' := {| listeners := listeners s; eventCount := eventCount s;
               lastEventTime := lastEventTime s;
               unresolved := Nat.pred (unresolved s);
               failures := failures s; completed := completed s;
               escaped := escaped s |} in
  if Nat.eqb (unresolved s') 0 then expectAndFinish s' else s'.

(** The bodies of the closures.  [epoch] is the value of [Date.now()] at
    the start of the test. *)
Definition exec (epoch : Z) (c : Closure) (now : Z) (s : Vars)
  : Vars * list (Z * Closure) :=
  match c with
  | Deliver l data =>
      match callback l data with
      | Throw e => (escape e s, [])
      | Normal _ => (bump (epoch + now) s, [])
      end
  | DeliverResolve l data =>
      match callback l data with
      | Throw e => (escape e s, [])
      | Normal _ => (resolveOne (bump (epoch + now) s), [])
      end
  | CheckEarly => (expectAndFinish s, [])
  end.

(** The first form of the test, from given registrations: [emit], then
    [setTimeout(check, 50)]. *)
Definition flakyRun (ev : string) (data : value) (rand : nat -> Z) (s : Vars)
  : EventLoop.World Vars Closure :=
  EventLoop.boot s (emit ev data rand s ++ [(50, CheckEarly)]).

(** The fixed form: [await emit(...)], then the expectations.  With no
    listener to wait for, [Promise.all([])] is resolved at once. *)
Definition fixedRun (ev : string) (data : value) (rand : nat -> Z) (s : Vars)
  : EventLoop.World Vars Closure :=
  let calls := emitAsync ev data rand s in
  let s' := {| listeners := listeners s; eventCount := eventCount s;
               lastEventTime := lastEventTime s;
               unresolved := List.length calls;
               failures := failures s; completed := completed s;
               escaped := escaped s |} in
  EventLoop.boot
    (if Nat.eqb (List.length calls) 0 then expectAndFinish s' else s') calls.

(** The registrations and the data of the test: three listeners
    [() => {}] on ['test-event'], and [{ test: 'data' }]. *)
Definition noop : value -> completion unit := fun _ => Normal tt.

Definition registered : Vars :=
  on "test-event" noop (on "test-event" noop (on "test-event" noop initial)).

Definition testData : value := VObject [("test"%string, VString "data")].

(** Whether the listener of a delivery returns normally. *)
Definition delivers (c : Closure) : bool :=
  match c with
  | Deliver l data | DeliverResolve l data =>
      match callback l data with
      | Normal _ => true
      | Throw _ => false
      end
  | CheckEarly => false
  end.

(** The deliveries among [calls] that are due by time [limit] and whose
    listener returns normally. *)
Definition deliveredBy (limit : Z) (calls : list (Z * Closure)) : nat :=
  List.length (filter (fun call => (Z.max 0 (fst call) <=? limit) && delivers (snd call))
            calls).

(** The variables after the listeners [ls] have been registered, one
    call of [on] each, in order. *)
Definition registerAll (ls : list Listener) : Vars :=
  fold_left (fun s l => on (event l) (callback l) s) ls initial.

End Emitter.

(** ** Test 4: a DOM update and a check at 150 ms *)

(** Assignment [o.k = v] on the own properties of an object. *)
Fixpoint setProp (k : string) (v : value) (props : list (string * value))
  : list (string * value) :=
  match props with
  | [] => [(k, v)]
  | (k', v') :: rest =>
      if String.eqb k k' then (k, v) :: rest
      else (k', v') :: setProp k v rest
  end.

(** [expect(v).toBe(s)] for a string literal [s]. *)
Definition isString (s : string) (v : value) : bool :=
  match v with
  | VString s' => String.eqb s' s
  | _ => false
  end.

Module DomUpdate.

(** [mockElement] ([style], [innerHTML], the calls received by the two
    spies of [classList]), [domUpdateComplete], the labels of the failed
    expectations and whether [done()] has been called. *)
Record Vars : Type := {
  style : list (string * value);
  innerHTML : string;
  addCalls : list (list value);
  removeCalls : list (list value);
  domUpdateComplete : bool;
  failures : list string;
  completed : bool
}.

Definition initial : Vars :=
  {| style := []; innerHTML := ""; addCalls := []; removeCalls := [];
     domUpdateComplete := false; failures := []; completed := false |}.

Inductive Closure : Type :=
| Update
| CheckDom.

(** [toHaveBeenCalledWith(s)] on the recorded calls of a spy. *)
Definition calledWith (s : string) (calls : list (list value)) : bool :=
  existsb (fun args => match args with
                       | [VString s'] => String.eqb s' s
                       | _ => false
                       end) calls.

Definition expect (ok : bool) (label : string) (fs : list string)
  : list string :=
  if ok then fs else fs ++ [label].

Definition exec (c : Closure) (now : Z) (s : Vars)
  : Vars * list (Z * Closure) :=
  match c with
  | Update =>
      ({| style := setProp "display" (VString "block") (style s);
          innerHTML := "Updated content";
          addCalls := addCalls s ++ [[VString "updated"]];
          removeCalls := removeCalls s;
          domUpdateComplete := true;
          failures := failures s; completed := completed s |}, [])
  | CheckDom =>
      let f1 := expect (isString "block" (lookup "display" (style s)))
                  "style.display" (failures s) in
      let f2 := expect (String.eqb (innerHTML s) "Updated content")
                  "innerHTML" f1 in
      let f3 := expect (calledWith "updated" (addCalls s))
                  "classList.add" f2 in
      let f4 := expect (domUpdateComplete s) "domUpdateComplete" f3 in
      ({| style := style s; innerHTML := innerHTML s;
          addCalls := addCalls s; removeCalls := removeCalls s;
          domUpdateComplete := domUpdateComplete s;
          failures := f4; completed := true |}, [])
  end.

(** The test body: [mockDOMUpdate()] with the delay drawn, the value of
    [Math.random() * 200 + 100] as [setTimeout] takes it, then
    [setTimeout(check, 150)]. *)
Definition test (delay : Z) : EventLoop.World Vars Closure :=
  EventLoop.boot initial [(delay, Update); (150, CheckDom)].

End DomUpdate.

(** ** The matchers of the test framework *)

(** The suites are Jasmine's ([describe], [it], [jasmine.createSpy]);
    these are the matchers its [expect] comes with.  The source files
    register no other. *)
Definition jasmineMatchers : list string :=
  ["toBe"; "toBeCloseTo"; "toBeDefined"; "toBeFalse"; "toBeFalsy";
   "toBeGreaterThan"; "toBeGreaterThanOrEqual"; "toBeInstanceOf";
   "toBeLessThan"; "toBeLessThanOrEqual"; "toBeNaN";
   "toBeNegativeInfinity"; "toBeNull"; "toBePositiveInfinity"; "toBeTrue";
   "toBeTruthy"; "toBeUndefined"; "toContain"; "toEqual";
   "toHaveBeenCalled"; "toHaveBeenCalledBefore";
   "toHaveBeenCalledOnceWith"; "toHaveBeenCalledTimes";
   "toHaveBeenCalledWith"; "toHaveClass"; "toHaveSize"; "toMatch";
   "toThrow"; "toThrowError"; "toThrowMatching"]%string.

Definition hasMatcher (name : string) : bool :=
  existsb (String.eqb name) jasmineMatchers.

(** ** Test 3: three overlapping operations *)

Module Overlap.

(** [startTime], the [results] array of [{ op, time }], the number of
    promises under [Promise.all] not resolved yet, the labels of the
    failed expectations, the exception that ended the async test
    function if any, and whether the function has ended. *)
Record Vars : Type := {
  startTime : Z;
  results : list (string * Z);
  unresolved : nat;
  failures : list string;
  thrown : option error;
  completed : bool
}.

Inductive Closure : Type :=
| Op (name : string).

Definition expect (ok : bool) (label : string) (s : Vars) : Vars :=
  {| startTime := startTime s; results := results s;
     unresolved := unresolved s;
     failures := if ok then failures s else failures s ++ [label];
     thrown := thrown s; completed := completed s |}.

Definition finish (e : option error) (s : Vars) : Vars :=
  {| startTime := startTime s; results := results s;
     unresolved := unresolved s; failures := failures s;
     thrown := e; completed := true |}.

(** [expect(actual).matcher(expected)], then the rest [k] of the
    function.  The object [expect] returns has the matchers of the
    framework as its methods: the call of one it does not have is the
    call of [undefined] and throws a TypeError, which ends the function
    before anything is recorded. *)
Definition expectWith (matcher : string) (ok : bool) (label : string)
    (k : Vars -> Vars) (s : Vars) : Vars :=
  if hasMatcher matcher then k (expect ok label s)
  else finish (Some TypeError) s.

(** [expect(results[i].op).toBe(name)], then the rest [k] of the
    function; [results[i].op] throws when [results[i]] is undefined. *)
Definition expectOp (i : nat) (name label : string) (k : Vars -> Vars)
    (s : Vars) : Vars :=
  match nth_error (results s) i with
  | None => finish (Some TypeError) s
  | Some entry => expectWith "toBe" (String.eqb (fst entry) name) label k s
  end.

(** What follows [await Promise.all(promises)]. *)
Definition afterAll (s : Vars) : Vars :=
  expectWith "toHaveLength" (Nat.eqb (List.length (results s)) 3)
    "results.length"
    (expectOp 0 "third" "results[0].op"
       (expectOp 1 "first" "results[1].op"
          (expectOp 2 "second" "results[2].op" (finish None))))
    s.

(** The timer callback of an operation:
    [results.push({ op, time: Date.now() - startTime }); resolve(op);]
    the last resolution lets the test function continue. *)
Definition exec (epoch : Z) (c : Closure) (now : Z) (s : Vars)
  : Vars * list (Z * Closure) :=
  match c with
  | Op name =>
      let s1 := {| startTime := startTime s;
                   results := results s ++ [(name, epoch + now - startTime s)];
                   unresolved := Nat.pred (unresolved s);
                   failures := failures s; thrown := thrown s;
                   completed := completed s |} in
      (if Nat.eqb (unresolved s1) 0 then afterAll s1 else s1, [])
  end.

(** The test body; [d1], [d2], [d3] are the delays drawn for the three
    operations, in the order of the calls. *)
Definition test (epoch d1 d2 d3 : Z) : EventLoop.World Vars Closure :=
  EventLoop.boot
    {| startTime := epoch; results := []; unresolved := 3;
       failures := []; thrown := None; completed := false |}
    [(d1, Op "first"); (d2, Op "second"); (d3, Op "third")].

End Overlap.

(** ** Test 1: initialization flag, component check and timing check *)

Module Race.

(** What the runner records of the test, in order: an expectation that
    passed or failed, the call of [done()], an exception out of a timer
    callback. *)
Inductive Event : Type :=
| Passed (label : string)
| Failed (label : string)
| Done
| Threw (e : error).

Record Vars : Type := {
  initializationComplete : bool;
  componentCheckComplete : bool;
  log : list Event
}.

Definition initial : Vars :=
  {| initializationComplete := false; componentCheckComplete := false;
     log := [] |}.

(** The three timer callbacks: the one of [mockAsyncInit], the one set
    by the [then] callback, and the one set by the test body. *)
Inductive Closure : Type :=
| InitDone
| ComponentCheck
| TimingCheck.

Definition record (e : Event) (s : Vars) : Vars :=
  {| initializationComplete := initializationComplete s;
     componentCheckComplete := componentCheckComplete s;
     log := log s ++ [e] |}.

Definition isDone (e : Event) : bool :=
  match e with
  | Done => true
  | _ => false
  end.

(** Whether [done()] has been called. *)
Definition doneCalled (l : list Event) : bool := existsb isDone l.

(** [expect(actual).toBe(expected)] and the like.  [done()] ends the
    test: an [expect] call made after it is no expectation of this test
    (the framework credits it to the test running by then, or refuses
    it when none is), so the record of this test stays as it is. *)
Definition expect (ok : bool) (label : string) (s : Vars) : Vars :=
  if doneCalled (log s) then s
  else record (if ok then Passed label else Failed label) s.

(** The bodies.  The [then] callback of [mockAsyncInit()] runs as soon
    as the timer callback that resolves the promise returns, so its
    [setTimeout] call is made at that time.  [openmct] is the value of
    the variable during the test. *)
Definition exec (openmct : value) (c : Closure) (now : Z) (s : Vars)
  : Vars * list (Z * Closure) :=
  match c with
  | InitDone =>
      ({| initializationComplete := true;
          componentCheckComplete := componentCheckComplete s;
          log := log s |}, [(10, ComponentCheck)])
  | ComponentCheck =>
      let s1 := {| initializationComplete := initializationComplete s;
                   componentCheckComplete := true; log := log s |} in
      match getProp openmct "components" with
      | Throw e => (record (Threw e) s1, [])
      | Normal c =>
          let s2 := expect (toBeDefined c) "openmct.components" s1 in
          match getProp openmct "components" with
          | Throw e => (record (Threw e) s2, [])
          | Normal c' =>
              match getProp c' "ObjectView" with
              | Throw e => (record (Threw e) s2, [])
              | Normal o =>
                  (record Done
                     (expect (toBeDefined o)
                        "openmct.components.ObjectView" s2), [])
              end
          end
      end
  | TimingCheck =>
      (expect (componentCheckComplete s) "componentCheckComplete"
         (expect (initializationComplete s) "initializationComplete" s), [])
  end.

(** The test body: [mockAsyncInit()] with the delay drawn, the value of
    [Math.random() * 150 + 50] as [setTimeout] takes it, then
    [setTimeout(timingCheck, 100)]. *)
Definition test (delay : Z) : EventLoop.World Vars Closure :=
  EventLoop.boot initial [(delay, InitDone); (100, TimingCheck)].

(** The events of the component check. *)
Definition componentEvents (openmct : value) : list Event :=
  log (fst (exec openmct ComponentCheck 0 initial)).

(** The events of the timing check, from the two flags and whether
    [done()] has been called. *)
Definition timingEvents (init check over : bool) : list Event :=
  if over then []
  else [if init then Passed "initializationComplete"
        else Failed "initializationComplete";
        if check then Passed "componentCheckComplete"
        else Failed "componentCheckComplete"].

End Race.

(** ** Test 5: object creation and cleanup *)

Module Lifecycle.
Section Defs.

(** The type of the results of [Math.random()]. *)
Context {Num : Type}.

(** An object [{ id, data }]; [data] is an array of strings, or [null]. *)
Record Obj : Type := { id : Num; data : option (list string) }.

(** [objectsCreated], [objectsDestroyed], the objects allocated so far
    (an object is referred to by its position), the [objects] array of
    references, the labels of the failed expectations and whether
    [done()] has been called. *)
Record Vars : Type := {
  objectsCreated : nat;
  objectsDestroyed : nat;
  store : list Obj;
  objects : list nat;
  failures : list string;
  completed : bool
}.

Definition initial : Vars :=
  {| objectsCreated := 0; objectsDestroyed := 0; store := []; objects := [];
     failures := []; completed := false |}.

Inductive Closure : Type :=
| Cleanup (addr : nat)
| CheckCleanup.

(** [obj.data = null] on the object at [addr]. *)
Fixpoint clearData (addr : nat) (st : list Obj) : list Obj :=
  match st, addr with
  | [], _ => []
  | o :: rest, O => {| id := id o; data := None |} :: rest
  | o :: rest, S a => o :: clearData a rest
  end.

(** [createObject()]: the new variables, the reference returned and the
    [setTimeout] call made; [idv] and [delay] are the two values drawn,
    the second as [setTimeout] takes it. *)
Definition createObject (idv : Num) (delay : Z) (s : Vars)
  : Vars * nat * (Z * Closure) :=
  let addr := List.length (store s) in
  ({| objectsCreated := S (objectsCreated s);
      objectsDestroyed := objectsDestroyed s;
      store := store s ++
               [{| id := idv; data := Some (repeat "test data"%string 1000) |}];
      objects := objects s; failures := failures s;
      completed := completed s |},
   addr, (delay, Cleanup addr)).

(** The remaining [count] rounds of
    [for (let i = 0; i < 5; i++) objects.push(createObject())],
    from index [i]: the variables at the end and the [setTimeout] calls
    made. *)
Fixpoint createLoop (count i : nat) (ids : nat -> Num) (delays : nat -> Z)
    (s : Vars) : Vars * list (Z * Closure) :=
  match count with
  | O => (s, [])
  | S c =>
      let '(s1, addr, call) := createObject (ids i) (delays i) s in
      let s2 := {| objectsCreated := objectsCreated s1;
                   objectsDestroyed := objectsDestroyed s1;
                   store := store s1; objects := objects s1 ++ [addr];
                   failures := failures s1; completed := completed s1 |} in
      let (s3, calls) := createLoop c (S i) ids delays s2 in
      (s3, call :: calls)
  end.

Definition expect (ok : bool) (label : string) (fs : list string)
  : list string :=
  if ok then fs else fs ++ [label].

Definition exec (c : Closure) (now : Z) (s : Vars)
  : Vars * list (Z * Closure) :=
  match c with
  | Cleanup addr =>
      ({| objectsCreated := objectsCreated s;
          objectsDestroyed := S (objectsDestroyed s);
          store := clearData addr (store s);
          objects := objects s; failures := failures s;
          completed := completed s |}, [])
  | CheckCleanup =>
      let f1 := expect (Nat.eqb (objectsCreated s) 5) "objectsCreated"
                  (failures s) in
      let f2 := expect (Nat.eqb (objectsDestroyed s) 5) "objectsDestroyed"
                  f1 in
      ({| objectsCreated := objectsCreated s;
          objectsDestroyed := objectsDestroyed s;
          store := store s; objects := objects s;
          failures := f2; completed := true |}, [])
  end.

(** The test body with [count] rounds of the loop (5 in the test), then
    [setTimeout(check, 100)]. *)
Definition run (count : nat) (ids : nat -> Num) (delays : nat -> Z)
  : EventLoop.World Vars Closure :=
  let (s, calls) := createLoop count 0 ids delays initial in
  EventLoop.boot s (calls ++ [(100, CheckCleanup)]).

(** The cleanups among the first [count] that are due by [limit]. *)
Definition cleanedBy (limit : Z) (count : nat) (delays : nat -> Z) : nat :=
  List.length (filter (fun i => Z.max 0 (delays i) <=? limit) (seq 0 count)).

End Defs.

Arguments Obj Num : clear implicits.
Arguments Vars Num : clear implicits.

End Lifecycle.

(** ** The shape of every run *)

Section Shape.

Context {Heap : Type}.
Variable r : WaitRequest Heap.
Variable lag : nat -> Z.
Variable host : nat -> Heap -> Heap.
Variable h : Heap.

Lemma heapSince_same (k : nat) :
  heapSince r host h k k = fst (predicate r (seen r host h k)).
Proof.
  unfold heapSince. rewrite Nat.sub_diag. reflexivity.
Qed.

Lemma heapSince_step (k n : nat) :
  (k <= n)%nat ->
  heapSince r host h k (S n) = host n (heapSince r host h k n).
Proof.
  intro Hle. unfold heapSince.
  rewrite Nat.sub_succ_l by exact Hle. cbn [hostTasks].
  replace (k + (n - k))%nat with n by lia. reflexivity.
Qed.

Lemma start_shape :
  start r h =
  match verdict r host h 0 with
  | Falsy => pollingAt r lag host h 0
  | Truthy => fulfilledAt r lag host h 0 0
  | Throws e => rejectedAt r host h e 0
  end.
Proof.
  unfold start, checkInitialization, verdict, verdictOn.
  cbn [seen heap].
  destruct (snd (predicate r h)) as [v | e]; [destruct (truthy v) |];
    reflexivity.
Qed.

Lemma fire_polling (n : nat) :
  fire r (lag n) (hostStep (host n) (pollingAt r lag host h n)) =
  match verdict r host h (S n) with
  | Falsy => pollingAt r lag host h (S n)
  | Truthy => fulfilledAt r lag host h (S n) (S n)
  | Throws e => strandedAt r lag host h (S n) e (S n)
  end.
Proof.
  assert (Hmax : Z.max (clockAt lag n) (clockAt lag n + pollDelay)
                 + Z.max 0 (lag n) = clockAt lag (S n)).
  { cbn [clockAt]. unfold pollDelay. lia. }
  unfold fire, hostStep, pollingAt, checkInitialization, verdict, verdictOn.
  cbn [timers heap now advance countEval written].
  change (host n (fst (predicate r (seen r host h n))))
    with (seen r host h (S n)).
  destruct (snd (predicate r (seen r host h (S n)))) as [v | e];
    [destruct (truthy v) |].
  - unfold resolve, fulfilledAt, advance, countEval, written.
    cbn [heap now timers promise evals settlements uncaught].
    rewrite Hmax, heapSince_same. reflexivity.
  - unfold setTimeout, pollingAt, advance, countEval, written.
    cbn [heap now timers promise evals settlements uncaught app].
    rewrite Hmax. reflexivity.
  - unfold report, strandedAt, advance, countEval, written.
    cbn [heap now timers promise evals settlements uncaught].
    rewrite Hmax, heapSince_same. reflexivity.
Qed.

Lemma fire_idle (late : Z) (f : Heap -> Heap) (s : Loop Heap) :
  timers s = [] -> fire r late (hostStep f s) = hostStep f s.
Proof.
  intro Hidle. unfold fire, hostStep. cbn [timers]. rewrite Hidle. reflexivity.
Qed.

Lemma run_polling (n : nat) :
  (forall i, (i <= n)%nat -> verdict r host h i = Falsy) ->
  run r lag host h n = pollingAt r lag host h n.
Proof.
  induction n as [| n IH]; intro Hfalse.
  - cbn [run]. rewrite start_shape, (Hfalse 0%nat) by lia. reflexivity.
  - cbn [run]. rewrite IH by (intros i Hi; apply Hfalse; lia).
    rewrite fire_polling, (Hfalse (S n)) by lia. reflexivity.
Qed.

(** Once no timer is pending, only the host changes anything. *)
Lemma run_idle_step (n : nat) :
  timers (run r lag host h n) = [] ->
  run r lag host h (S n) = hostStep (host n) (run r lag host h n).
Proof.
  intro Hidle. cbn [run]. apply fire_idle. exact Hidle.
Qed.

Lemma run_fulfilled (k n : nat) :
  firstTrueAt r host h k -> (k <= n)%nat ->
  run r lag host h n = fulfilledAt r lag host h k n.
Proof.
  intros [Hbefore Hk] Hle.
  induction n as [| n IH].
  - assert (k = 0)%nat as -> by lia.
    cbn [run]. rewrite start_shape, Hk. reflexivity.
  - destruct (Nat.eq_dec k (S n)) as [-> | Hne].
    + cbn [run]. rewrite run_polling by (intros i Hi; apply Hbefore; lia).
      rewrite fire_polling, Hk. reflexivity.
    + rewrite run_idle_step; rewrite IH by lia; [| reflexivity].
      unfold hostStep, fulfilledAt.
      cbn [heap now timers promise evals settlements uncaught].
      rewrite heapSince_step by lia. reflexivity.
Qed.

Lemma run_rejected (e : error) (n : nat) :
  verdict r host h 0 = Throws e ->
  run r lag host h n = rejectedAt r host h e n.
Proof.
  intro H0.
  induction n as [| n IH].
  - cbn [run]. rewrite start_shape, H0. reflexivity.
  - rewrite run_idle_step; rewrite IH; [| reflexivity].
    unfold hostStep, rejectedAt.
    cbn [heap now timers promise evals settlements uncaught].
    rewrite heapSince_step by lia. reflexivity.
Qed.

Lemma run_stranded (k : nat) (e : error) (n : nat) :
  firstThrowAt r host h k e -> (0 < k <= n)%nat ->
  run r lag host h n = strandedAt r lag host h k e n.
Proof.
  intros [Hbefore Hk] Hle.
  induction n as [| n IH]; [lia |].
  destruct (Nat.eq_dec k (S n)) as [-> | Hne].
  - cbn [run]. rewrite run_polling by (intros i Hi; apply Hbefore; lia).
    rewrite fire_polling, Hk. reflexivity.
  - rewrite run_idle_step; rewrite IH by lia; [| reflexivity].
    unfold hostStep, strandedAt.
    cbn [heap now timers promise evals settlements uncaught].
    rewrite heapSince_step by lia. reflexivity.
Qed.

(** Among the first [n+1] evaluations, either all return false or there
    is a first one that does not. *)
Lemma first_not_false (n : nat) :
  (forall i, (i <= n)%nat -> verdict r host h i = Falsy) \/
  (exists k, (k <= n)%nat /\
     (forall i, (i < k)%nat -> verdict r host h i = Falsy) /\
     verdict r host h k <> Falsy).
Proof.
  induction n as [| n [IH | (k & Hk & Hbefore & Hat)]].
  - destruct (verdict r host h 0) eqn:E.
    + right. exists 0%nat. repeat split; [lia | intros i Hi; lia | congruence].
    + left. intros i Hi. assert (i = 0)%nat as -> by lia. exact E.
    + right. exists 0%nat. repeat split; [lia | intros i Hi; lia | congruence].
  - destruct (verdict r host h (S n)) eqn:E.
    + right. exists (S n). repeat split;
        [lia | intros i Hi; apply IH; lia | congruence].
    + left. intros i Hi. destruct (Nat.eq_dec i (S n)) as [-> | Hne];
        [exact E | apply IH; lia].
    + right. exists (S n). repeat split;
        [lia | intros i Hi; apply IH; lia | congruence].
  - right. exists k. repeat split; [lia | exact Hbefore | exact Hat].
Qed.

Lemma run_shape (n : nat) : RunShape r lag host h n (run r lag host h n).
Proof.
  destruct (first_not_false n) as [Hall | (k & Hk & Hbefore & Hat)].
  - apply ShapePolling; [exact Hall | apply run_polling; exact Hall].
  - destruct (verdict r host h k) as [| | e] eqn:E.
    + apply (ShapeFulfilled r lag host h n _ k);
        [exact Hk | split; assumption |].
      apply run_fulfilled; [split; assumption | exact Hk].
    + congruence.
    + destruct k as [| k'].
      * apply (ShapeRejected r lag host h n _ e); [exact E |].
        apply run_rejected; exact E.
      * apply (ShapeStranded r lag host h n _ (S k') e);
          [lia | split; assumption |].
        apply run_stranded; [split; assumption | lia].
Qed.

(** A step of the loop changes the caller-owned state as one call of the
    predicate does, or not at all. *)
Lemma heap_fire (late : Z) (s : Loop Heap) :
  heap (fire r late s) =
  match timers s with
  | [] => heap s
  | _ :: _ => fst (predicate r (heap s))
  end.
Proof.
  unfold fire, checkInitialization.
  destruct (timers s) as [| due rest]; [reflexivity |].
  cbn [heap advance].
  destruct (snd (predicate r (heap s))) as [v | e];
    [destruct (truthy v) |]; reflexivity.
Qed.

Lemma heap_start : heap (start r h) = fst (predicate r h).
Proof.
  unfold start, checkInitialization. cbn [heap].
  destruct (snd (predicate r h)) as [v | e];
    [destruct (truthy v) |]; reflexivity.
Qed.

(** The clock of a polling loop: 50 ms a round at least, and exactly
    that when no timer is late. *)
Lemma clockAt_lower (n : nat) : 50 * Z.of_nat n <= clockAt lag n.
Proof.
  induction n as [| n IH]; [cbn; lia |].
  cbn [clockAt]. unfold pollDelay. lia.
Qed.

Lemma clockAt_step (n : nat) : 50 <= clockAt lag (S n) - clockAt lag n.
Proof.
  cbn [clockAt]. unfold pollDelay. lia.
Qed.

Lemma clockAt_punctual (n : nat) :
  (forall i, lag i <= 0) -> clockAt lag n = 50 * Z.of_nat n.
Proof.
  intro Hlag. induction n as [| n IH]; [reflexivity |].
  cbn [clockAt]. unfold pollDelay. specialize (Hlag n). lia.
Qed.

End Shape.

Lemma hostHeap_idle {Heap : Type} (h : Heap) (n : nat) :
  hostHeap idleHost h n = h.
Proof.
  induction n as [| n IH]; [reflexivity | exact IH].
Qed.

(** Under a predicate that only reads, the caller-owned state is what
    the host alone makes of it. *)
Lemma seen_readOnly {Heap : Type} (f : Heap -> completion value)
    (host : nat -> Heap -> Heap) (h : Heap) (i : nat) :
  seen {| predicate := readOnly f |} host h i = hostHeap host h i.
Proof.
  induction i as [| i IH]; [reflexivity |].
  cbn [seen hostHeap predicate readOnly fst]. rewrite IH. reflexivity.
Qed.

Lemma seen_guide (host : nat -> value -> value) (h : value) (i : nat) :
  seen guideRequest host h i = hostHeap host h i.
Proof.
  apply seen_readOnly.
Qed.

Lemma guide_idle (h : value) (i : nat) :
  verdict guideRequest idleHost h i = verdictOn guideRequest h.
Proof.
  unfold verdict. rewrite seen_guide, hostHeap_idle. reflexivity.
Qed.

(** ** The claims *)

(** C1 (as amended).  When the predicate never returns true the wait
    never resolves with [TimedOut], nor with [Satisfied]: the loop has no
    deadline.  Its outcome, in every round, is the rejection with the
    error thrown when the predicate throws at the first, synchronous
    evaluation, and there is none otherwise; and as long as the
    predicate has returned false, it has been evaluated once per round
    and one timer is pending, due 50 ms after the last evaluation. *)
Theorem never_true_polls_forever {Heap : Type} (r : WaitRequest Heap)
    (lag : nat -> Z) (host : nat -> Heap -> Heap) (h : Heap) :
  neverReturnsTrue r host h ->
  forall n,
    outcome (run r lag host h n)
    = match verdict r host h 0 with
      | Throws e => Some (PredicateError e)
      | _ => None
      end /\
    ((forall i, (i <= n)%nat -> verdict r host h i = Falsy) ->
       evals (run r lag host h n) = S n /\
       timers (run r lag host h n) = [now (run r lag host h n) + 50]).
Proof.
  intros Hnever n. split.
  - destruct (run_shape r lag host h n)
      as [Hall Hs | k Hk Hfirst Hs | e H0 Hs | k e Hk Hfirst Hs];
      rewrite Hs.
    + rewrite (Hall 0%nat) by lia. reflexivity.
    + exfalso. apply (Hnever k). exact (proj2 Hfirst).
    + rewrite H0. reflexivity.
    + rewrite (proj1 Hfirst 0%nat) by lia. reflexivity.
  - intro Hfalse. rewrite (run_polling r lag host h n Hfalse).
    split; reflexivity.
Qed.

Lemma never_true_polls_forever_witness :
  neverReturnsTrue guideRequest idleHost bareApp /\
  outcome (run guideRequest sluggish idleHost bareApp 3)
  = match verdict guideRequest idleHost bareApp 0 with
    | Throws e => Some (PredicateError e)
    | _ => None
    end /\
  ((forall i, (i <= 3)%nat -> verdict guideRequest idleHost bareApp i = Falsy) ->
     evals (run guideRequest sluggish idleHost bareApp 3) = 4%nat /\
     timers (run guideRequest sluggish idleHost bareApp 3)
     = [now (run guideRequest sluggish idleHost bareApp 3) + 50]).
Proof.
  assert (Hnever : neverReturnsTrue guideRequest idleHost bareApp).
  { intro i. rewrite guide_idle. discriminate. }
  split; [exact Hnever |].
  exact (never_true_polls_forever guideRequest sluggish idleHost bareApp
           Hnever 3).
Defined.

(** C1, as stated, fails: with [openmct = {}] for ever the predicate is
    never true, and no round ends in [TimedOut], whatever the deadline,
    the interval and the elapsed time. *)
Lemma timed_out_never_reported :
  neverTrue guideRequest idleHost bareApp /\
  ~ (exists (timeoutMs pollIntervalMs : Z) (n : nat),
       outcome (run guideRequest punctual idleHost bareApp n) = Some TimedOut /\
       timeoutMs <= now (run guideRequest punctual idleHost bareApp n)
         <= timeoutMs + pollIntervalMs).
Proof.
  assert (Hnever : neverTrue guideRequest idleHost bareApp).
  { intro i. rewrite guide_idle. reflexivity. }
  split; [exact Hnever |].
  intros (timeoutMs & pollIntervalMs & n & Hout & _).
  rewrite run_polling in Hout by (intros i _; apply Hnever).
  discriminate Hout.
Qed.

(** C2 (as amended).  The wait comes to an outcome exactly when the
    predicate returns true at some evaluation after only false results,
    or throws at the first, synchronous evaluation; there is no deadline.
    An exception escapes a timer callback unhandled exactly when the
    predicate throws at a later evaluation after only false results. *)
Theorem settles_iff {Heap : Type} (r : WaitRequest Heap)
    (lag : nat -> Z) (host : nat -> Heap -> Heap) (h : Heap) :
  (settles r lag host h <->
   (exists k, firstTrueAt r host h k) \/
   (exists e, verdict r host h 0 = Throws e)) /\
  ((exists n, uncaught (run r lag host h n) <> []) <->
   (exists k e, (0 < k)%nat /\ firstThrowAt r host h k e)).
Proof.
  split; split.
  - intros [n Hout].
    destruct (run_shape r lag host h n)
      as [Hall Hs | k Hk Hfirst Hs | e H0 Hs | k e Hk Hfirst Hs].
    + rewrite Hs in Hout. exfalso. apply Hout. reflexivity.
    + left. exists k. exact Hfirst.
    + right. exists e. exact H0.
    + rewrite Hs in Hout. exfalso. apply Hout. reflexivity.
  - intros [[k Hfirst] | [e H0]].
    + exists k. rewrite (run_fulfilled r lag host h k k Hfirst) by lia.
      discriminate.
    + exists 0%nat. rewrite (run_rejected r lag host h e 0 H0). discriminate.
  - intros [n Hlog].
    destruct (run_shape r lag host h n)
      as [Hall Hs | k Hk Hfirst Hs | e H0 Hs | k e Hk Hfirst Hs];
      rewrite Hs in Hlog; try (exfalso; apply Hlog; reflexivity).
    exists k, e. split; [lia | exact Hfirst].
  - intros (k & e & Hk & Hfirst).
    exists k. rewrite (run_stranded r lag host h k e k Hfirst) by lia.
    discriminate.
Qed.

(** C2, as stated, fails twice.  With [openmct.components = {}] for ever
    the predicate is never true and the wait never comes to an outcome.
    With [openmct] set to [undefined] after the first check, the second
    check throws out of its timer callback, unhandled, and the wait never
    comes to an outcome either. *)
Lemma wait_can_hang_and_throw :
  (neverTrue guideRequest idleHost halfApp /\
   ~ settles guideRequest punctual idleHost halfApp) /\
  (uncaught (run guideRequest punctual (writeAt 0 VUndefined) bareApp 1)
   = [TypeError] /\
   ~ settles guideRequest punctual (writeAt 0 VUndefined) bareApp).
Proof.
  assert (Hnever : neverTrue guideRequest idleHost halfApp).
  { intro i. rewrite guide_idle. reflexivity. }
  assert (Hthrow : firstThrowAt guideRequest (writeAt 0 VUndefined) bareApp 1
                     TypeError).
  { split; [| reflexivity].
    intros i Hi. assert (i = 0)%nat as -> by lia. reflexivity. }
  split; split.
  - exact Hnever.
  - intros [n Hout]. apply Hout.
    rewrite run_polling by (intros i _; apply Hnever). reflexivity.
  - reflexivity.
  - intros [n Hout]. apply Hout.
    destruct n as [| n]; [reflexivity |].
    rewrite (run_stranded _ _ _ _ 1 TypeError (S n) Hthrow) by lia.
    reflexivity.
Qed.

(** C3.  When the predicate is true at call time, the wait is resolved
    with [Satisfied] by the synchronous first evaluation: at time 0, with
    no timer scheduled, and the predicate is evaluated exactly once,
    however long the run goes on. *)
Theorem true_at_call_satisfied {Heap : Type} (r : WaitRequest Heap)
    (lag : nat -> Z) (host : nat -> Heap -> Heap) (h : Heap) :
  verdictOn r h = Truthy ->
  forall n,
    outcome (run r lag host h n) = Some Satisfied /\
    evals (run r lag host h n) = 1%nat /\
    timers (run r lag host h n) = [] /\
    now (run r lag host h n) = 0.
Proof.
  intros Htrue n.
  assert (Hfirst : firstTrueAt r host h 0).
  { split; [intros i Hi; lia | exact Htrue]. }
  rewrite (run_fulfilled r lag host h 0 n Hfirst) by lia.
  repeat split.
Qed.

Lemma true_at_call_satisfied_witness :
  verdictOn guideRequest readyApp = Truthy /\
  (outcome (run guideRequest sluggish idleHost readyApp 2) = Some Satisfied /\
   evals (run guideRequest sluggish idleHost readyApp 2) = 1%nat /\
   timers (run guideRequest sluggish idleHost readyApp 2) = [] /\
   now (run guideRequest sluggish idleHost readyApp 2) = 0).
Proof.
  split; [reflexivity |].
  exact (true_at_call_satisfied guideRequest sluggish idleHost readyApp
           eq_refl 2).
Defined.

(** C5.  When the predicate first returns true at its evaluation number
    [k] (from 0, after [k] false results), the wait is resolved with
    [Satisfied] by that evaluation and not before, and the number of
    evaluations after [n] rounds is [min n k + 1]: one per round up to
    round [k], [k+1] in total, none after. *)
Theorem first_true_counts {Heap : Type} (r : WaitRequest Heap)
    (lag : nat -> Z) (host : nat -> Heap -> Heap) (h : Heap) (k : nat) :
  firstTrueAt r host h k ->
  outcome (run r lag host h k) = Some Satisfied /\
  (forall n, (n < k)%nat -> outcome (run r lag host h n) = None) /\
  (forall n, evals (run r lag host h n) = S (Nat.min n k)).
Proof.
  intros Hfirst. split; [| split].
  - rewrite (run_fulfilled r lag host h k k Hfirst) by lia. reflexivity.
  - intros n Hn.
    rewrite run_polling by (intros i Hi; apply Hfirst; lia). reflexivity.
  - intro n. destruct (Nat.le_gt_cases k n) as [Hle | Hgt].
    + rewrite (run_fulfilled r lag host h k n Hfirst Hle).
      cbn [evals fulfilledAt]. f_equal. lia.
    + rewrite run_polling by (intros i Hi; apply Hfirst; lia).
      cbn [evals pollingAt]. f_equal. lia.
Qed.

Lemma first_true_counts_witness :
  firstTrueAt guideRequest (writeAt 1 readyApp) bareApp 2 /\
  (outcome (run guideRequest sluggish (writeAt 1 readyApp) bareApp 2)
   = Some Satisfied /\
   (forall n, (n < 2)%nat ->
      outcome (run guideRequest sluggish (writeAt 1 readyApp) bareApp n)
      = None) /\
   (forall n,
      evals (run guideRequest sluggish (writeAt 1 readyApp) bareApp n)
      = S (Nat.min n 2))).
Proof.
  assert (Hfirst : firstTrueAt guideRequest (writeAt 1 readyApp) bareApp 2).
  { split; [| reflexivity].
    intros i Hi. destruct i as [| [| i]]; [reflexivity | reflexivity | lia]. }
  split; [exact Hfirst |].
  exact (first_true_counts guideRequest sluggish (writeAt 1 readyApp) bareApp
           2 Hfirst).
Defined.

(** C6 (as amended).  When the predicate throws [e] at its evaluation
    number [k] (after only false results), the loop stops there: from
    round [k] on the predicate has been evaluated [k+1] times and no
    timer is pending.  Thrown by the first, synchronous evaluation, the
    exception rejects the wait at once, which is the outcome
    [PredicateError e]; thrown by a later evaluation, it escapes the
    timer callback unhandled and the wait stays pending for ever. *)
Theorem throw_stops_polling {Heap : Type} (r : WaitRequest Heap)
    (lag : nat -> Z) (host : nat -> Heap -> Heap) (h : Heap)
    (k : nat) (e : error) :
  firstThrowAt r host h k e ->
  forall n, (k <= n)%nat ->
    evals (run r lag host h n) = S k /\
    timers (run r lag host h n) = [] /\
    (k = 0%nat ->
       outcome (run r lag host h n) = Some (PredicateError e) /\
       uncaught (run r lag host h n) = []) /\
    ((0 < k)%nat ->
       outcome (run r lag host h n) = None /\
       uncaught (run r lag host h n) = [e]).
Proof.
  intros Hfirst n Hle.
  destruct k as [| k'].
  - rewrite (run_rejected r lag host h e n (proj2 Hfirst)).
    split; [reflexivity | split; [reflexivity | split]].
    + intros _. split; reflexivity.
    + intro Hpos. lia.
  - rewrite (run_stranded r lag host h (S k') e n Hfirst) by lia.
    split; [reflexivity | split; [reflexivity | split]].
    + intro Hzero. discriminate Hzero.
    + intros _. split; reflexivity.
Qed.

Lemma throw_stops_polling_witness :
  firstThrowAt guideRequest idleHost VUndefined 0 TypeError /\
  (evals (run guideRequest sluggish idleHost VUndefined 3) = 1%nat /\
   timers (run guideRequest sluggish idleHost VUndefined 3) = [] /\
   (0%nat = 0%nat ->
      outcome (run guideRequest sluggish idleHost VUndefined 3)
        = Some (PredicateError TypeError) /\
      uncaught (run guideRequest sluggish idleHost VUndefined 3) = []) /\
   ((0 < 0)%nat ->
      outcome (run guideRequest sluggish idleHost VUndefined 3) = None /\
      uncaught (run guideRequest sluggish idleHost VUndefined 3)
      = [TypeError])).
Proof.
  assert (Hfirst : firstThrowAt guideRequest idleHost VUndefined 0 TypeError).
  { split; [intros i Hi; lia | reflexivity]. }
  split; [exact Hfirst |].
  exact (throw_stops_polling guideRequest sluggish idleHost VUndefined 0
           TypeError Hfirst 3 (Nat.le_0_l 3)).
Defined.

(** C6, as stated, fails: with [openmct] set to [null] after the second
    check, the third check throws a TypeError, and no round ends in
    [PredicateError]: the exception is logged as unhandled and the wait
    stays pending. *)
Lemma late_throw_not_propagated :
  firstThrowAt guideRequest (writeAt 1 VNull) halfApp 2 TypeError /\
  ~ (exists n,
       outcome (run guideRequest punctual (writeAt 1 VNull) halfApp n)
       = Some (PredicateError TypeError)) /\
  uncaught (run guideRequest punctual (writeAt 1 VNull) halfApp 2)
  = [TypeError].
Proof.
  assert (Hfirst : firstThrowAt guideRequest (writeAt 1 VNull) halfApp 2
                     TypeError).
  { split; [| reflexivity].
    intros i Hi. destruct i as [| [| i]]; [reflexivity | reflexivity | lia]. }
  split; [exact Hfirst | split; [| reflexivity]].
  intros [n Hout].
  destruct (Nat.le_gt_cases 2 n) as [Hle | Hgt].
  - rewrite (run_stranded _ _ _ _ 2 TypeError n Hfirst) in Hout by lia.
    discriminate Hout.
  - rewrite run_polling in Hout by (intros i Hi; apply Hfirst; lia).
    discriminate Hout.
Qed.

(** C8 (as amended).  The wait produces at most one outcome: at every
    round the promise has been settled at most once, it has been settled
    exactly when there is an outcome, and an outcome once reached stays
    for ever, with no further evaluation, no pending timer and the clock
    of the loop stopped. *)
Theorem at_most_one_outcome {Heap : Type} (r : WaitRequest Heap)
    (lag : nat -> Z) (host : nat -> Heap -> Heap) (h : Heap) (n : nat) :
  (settlements (run r lag host h n) <= 1)%nat /\
  (settlements (run r lag host h n) = 1%nat <->
   outcome (run r lag host h n) <> None) /\
  (forall o m, outcome (run r lag host h n) = Some o -> (n <= m)%nat ->
     outcome (run r lag host h m) = Some o /\
     settlements (run r lag host h m) = 1%nat /\
     evals (run r lag host h m) = evals (run r lag host h n) /\
     timers (run r lag host h m) = [] /\
     now (run r lag host h m) = now (run r lag host h n)).
Proof.
  destruct (run_shape r lag host h n)
    as [Hall Hs | k Hk Hfirst Hs | e H0 Hs | k e Hk Hfirst Hs]; rewrite Hs.
  - split; [cbn; lia | split; [split; [discriminate | intro H; exfalso; apply H; reflexivity] |]].
    intros o m Hout _. discriminate Hout.
  - split; [cbn; lia | split; [split; [discriminate | reflexivity] |]].
    intros o m Hout Hle.
    rewrite (run_fulfilled r lag host h k m Hfirst) by lia.
    cbn in Hout |- *. repeat split. exact Hout.
  - split; [cbn; lia | split; [split; [discriminate | reflexivity] |]].
    intros o m Hout Hle.
    rewrite (run_rejected r lag host h e m H0).
    cbn in Hout |- *. repeat split. exact Hout.
  - split; [cbn; lia | split; [split; [discriminate | intro H; exfalso; apply H; reflexivity] |]].
    intros o m Hout _. discriminate Hout.
Qed.

(** C8, as stated, fails: with [openmct.components.ObjectView = null] for
    ever, the wait produces no outcome at all, in any round. *)
Lemma no_outcome_at_all :
  ~ (exists n o,
       outcome (run guideRequest punctual idleHost stalledApp n) = Some o).
Proof.
  intros (n & o & Hout).
  rewrite run_polling in Hout.
  - discriminate Hout.
  - intros i _. rewrite guide_idle. reflexivity.
Qed.

(** C9 (as amended).  The loop writes nothing of the caller's: a step of
    the loop changes the caller-owned state as one call of the predicate
    does, or not at all, so that after any number of rounds that state
    is what the calls of the predicate made so far and the host's tasks
    have made of it.  Besides calling the predicate, scheduling timers
    and settling its own promise, the loop has one more observable
    effect: an exception that the predicate throws inside a timer
    callback escapes unhandled; nothing is reported otherwise. *)
Theorem only_predicate_and_host_write {Heap : Type} (r : WaitRequest Heap)
    (lag : nat -> Z) (host : nat -> Heap -> Heap) (h : Heap) :
  heap (start r h) = fst (predicate r h) /\
  (forall late s,
     heap (fire r late s) =
     match timers s with
     | [] => heap s
     | _ :: _ => fst (predicate r (heap s))
     end) /\
  (forall late s, timers s = [] -> fire r late s = s) /\
  (forall n,
     heap (run r lag host h n)
     = heapSince r host h (Nat.pred (evals (run r lag host h n))) n) /\
  (forall n,
     uncaught (run r lag host h n) = [] \/
     exists k e, (0 < k <= n)%nat /\ firstThrowAt r host h k e /\
                 uncaught (run r lag host h n) = [e]).
Proof.
  split; [apply heap_start |].
  split; [intros late s; apply heap_fire |].
  split; [intros late s Hidle; unfold fire; rewrite Hidle; reflexivity |].
  split; intro n;
    destruct (run_shape r lag host h n)
      as [Hall Hs | k Hk Hfirst Hs | e H0 Hs | k e Hk Hfirst Hs]; rewrite Hs.
  - cbn [heap evals pollingAt Nat.pred]. rewrite heapSince_same. reflexivity.
  - reflexivity.
  - reflexivity.
  - reflexivity.
  - left. reflexivity.
  - left. reflexivity.
  - left. reflexivity.
  - right. exists k, e. split; [exact Hk | split; [exact Hfirst | reflexivity]].
Qed.

Lemma only_predicate_and_host_write_witness :
  heap (run countingRequest sluggish (writeAt 3 40%nat) 0%nat 5%nat)
  = heapSince countingRequest (writeAt 3 40%nat) 0%nat
      (Nat.pred (evals (run countingRequest sluggish (writeAt 3 40%nat)
                          0%nat 5%nat))) 5%nat /\
  evals (run countingRequest sluggish (writeAt 3 40%nat) 0%nat 5%nat)
  = 3%nat /\
  heap (run countingRequest sluggish (writeAt 3 40%nat) 0%nat 3%nat)
  = 3%nat /\
  heap (run countingRequest sluggish (writeAt 3 40%nat) 0%nat 5%nat)
  = 40%nat.
Proof.
  split; [| repeat split].
  exact (proj1 (proj2 (proj2 (proj2
           (only_predicate_and_host_write countingRequest sluggish
              (writeAt 3 40%nat) 0%nat)))) 5%nat).
Defined.

(** C9, as stated, fails: with [openmct.components.ObjectView = 0] and
    [openmct] set to [null] after the third check, the fourth check
    throws inside its timer callback; the exception, absent before the
    call and after the first rounds, is then reported as unhandled,
    which is neither a call of the predicate nor the scheduling of a
    timer. *)
Lemma unhandled_exception_is_an_effect :
  uncaught (run guideRequest punctual (writeAt 2 VNull) lostApp 0) = [] /\
  uncaught (run guideRequest punctual (writeAt 2 VNull) lostApp 2) = [] /\
  uncaught (run guideRequest punctual (writeAt 2 VNull) lostApp 3)
  = [TypeError] /\
  ~ (forall n,
       uncaught (run guideRequest punctual (writeAt 2 VNull) lostApp n)
       = uncaught (run guideRequest punctual (writeAt 2 VNull) lostApp 0)).
Proof.
  split; [reflexivity | split; [reflexivity | split; [reflexivity |]]].
  intro Hsame. specialize (Hsame 3%nat). discriminate Hsame.
Qed.

(** C10.  A round ends in [Satisfied] only if the most recent evaluation
    of the predicate, number [evals - 1], returned true, all earlier ones
    having returned false; the outcome appears in the round of that very
    evaluation and in none before. *)
Theorem satisfied_only_after_true {Heap : Type} (r : WaitRequest Heap)
    (lag : nat -> Z) (host : nat -> Heap -> Heap) (h : Heap) (n : nat) :
  outcome (run r lag host h n) = Some Satisfied ->
  exists k, (k <= n)%nat /\
    evals (run r lag host h n) = S k /\
    verdict r host h k = Truthy /\
    (forall i, (i < k)%nat -> verdict r host h i = Falsy) /\
    (forall j, (j < k)%nat -> outcome (run r lag host h j) = None) /\
    outcome (run r lag host h k) = Some Satisfied.
Proof.
  intro Hout.
  destruct (run_shape r lag host h n)
    as [Hall Hs | k Hk Hfirst Hs | e H0 Hs | k e Hk Hfirst Hs];
    rewrite Hs in Hout; try discriminate Hout.
  exists k. rewrite Hs.
  split; [exact Hk |]. split; [reflexivity |].
  split; [exact (proj2 Hfirst) |]. split; [exact (proj1 Hfirst) |].
  split.
  - intros j Hj.
    rewrite run_polling by (intros i Hi; apply Hfirst; lia). reflexivity.
  - rewrite (run_fulfilled r lag host h k k Hfirst) by lia. reflexivity.
Qed.

Lemma satisfied_only_after_true_witness :
  outcome (run guideRequest sluggish (writeAt 0 readyApp) halfApp 4)
  = Some Satisfied /\
  exists k, (k <= 4)%nat /\
    evals (run guideRequest sluggish (writeAt 0 readyApp) halfApp 4) = S k /\
    verdict guideRequest (writeAt 0 readyApp) halfApp k = Truthy /\
    (forall i, (i < k)%nat ->
       verdict guideRequest (writeAt 0 readyApp) halfApp i = Falsy) /\
    (forall j, (j < k)%nat ->
       outcome (run guideRequest sluggish (writeAt 0 readyApp) halfApp j)
       = None) /\
    outcome (run guideRequest sluggish (writeAt 0 readyApp) halfApp k)
    = Some Satisfied.
Proof.
  split; [reflexivity |].
  exact (satisfied_only_after_true guideRequest sluggish (writeAt 0 readyApp)
           halfApp 4 eq_refl).
Defined.

(** ** The guide's condition and the expectations after the wait *)

Lemma truthy_getProp (c : value) (k : string) :
  truthy c = true ->
  getProp c k = Normal (match c with
                        | VObject props => lookup k props
                        | _ => VUndefined
                        end).
Proof.
  destruct c; cbn; intro Ht; try discriminate Ht; reflexivity.
Qed.

(** X1.  The condition throws exactly when [openmct] is [undefined] or
    [null], and what it throws is then a TypeError; on every other value
    it returns normally. *)
Theorem componentsReady_throws_iff (openmct : value) (e : error) :
  componentsReady openmct = Throw e <->
  (openmct = VUndefined \/ openmct = VNull) /\ e = TypeError.
Proof.
  unfold componentsReady.
  destruct openmct as [| | b | z | s | props]; cbn [getProp truthy];
    try (split; [discriminate | intros [[H | H] _]; discriminate H]).
  - split; [intro H; injection H as <-; auto | intros [_ ->]; reflexivity].
  - split; [intro H; injection H as <-; auto | intros [_ ->]; reflexivity].
  - destruct (truthy (lookup "components" props)) eqn:Ht.
    + rewrite (truthy_getProp _ _ Ht).
      split; [discriminate | intros [[H | H] _]; discriminate H].
    + split; [discriminate | intros [[H | H] _]; discriminate H].
Qed.

Lemma ready_inv (openmct : value) :
  verdictOn guideRequest openmct = Truthy ->
  exists props cprops,
    openmct = VObject props /\
    lookup "components" props = VObject cprops /\
    truthy (lookup "ObjectView" cprops) = true.
Proof.
  unfold verdictOn. cbn [predicate guideRequest readOnly snd].
  unfold componentsReady.
  destruct openmct as [| | b | z | s | props]; cbn [getProp truthy];
    try discriminate.
  destruct (truthy (lookup "components" props)) eqn:Ht.
  - rewrite (truthy_getProp _ _ Ht).
    destruct (lookup "components" props) as [| | b | z | s | cprops] eqn:Hc;
      cbn [truthy]; try discriminate.
    destruct (truthy (lookup "ObjectView" cprops)) eqn:Hv;
      [| discriminate].
    intros _. exists props, cprops. auto.
  - rewrite Ht. discriminate.
Qed.

(** X2.  The condition is truthy exactly when [openmct] is an object
    whose [components] is an object whose [ObjectView] is truthy. *)
Theorem componentsReady_truthy_iff (openmct : value) :
  verdictOn guideRequest openmct = Truthy <->
  exists props cprops,
    openmct = VObject props /\
    lookup "components" props = VObject cprops /\
    truthy (lookup "ObjectView" cprops) = true.
Proof.
  split; [apply ready_inv |].
  intros (props & cprops & -> & Hc & Hv).
  unfold verdictOn. cbn [predicate guideRequest readOnly snd].
  unfold componentsReady.
  cbn [getProp]. rewrite Hc. cbn [truthy getProp]. rewrite Hv. reflexivity.
Qed.

(** X3.  When the wait is resolved, the two expectations that follow it
    pass on the value [openmct] had at the resolving evaluation. *)
Theorem satisfied_then_expectations_pass (lag : nat -> Z)
    (host : nat -> value -> value) (h : value) (n : nat) :
  outcome (run guideRequest lag host h n) = Some Satisfied ->
  exists k, (k <= n)%nat /\
    evals (run guideRequest lag host h n) = S k /\
    componentsExpectations (hostHeap host h k) = Normal true.
Proof.
  intro Hout.
  destruct (run_shape guideRequest lag host h n)
    as [Hall Hs | k Hk Hfirst Hs | e H0 Hs | k e Hk Hfirst Hs];
    rewrite Hs in Hout; try discriminate Hout.
  exists k. rewrite Hs. split; [exact Hk | split; [reflexivity |]].
  destruct Hfirst as [_ Htrue]. unfold verdict in Htrue.
  rewrite seen_guide in Htrue. apply ready_inv in Htrue.
  destruct Htrue as (props & cprops & Hv & Hc & Ho).
  rewrite Hv. unfold componentsExpectations. cbn [getProp].
  rewrite Hc. cbn [getProp toBeDefined andb].
  destruct (lookup "ObjectView" cprops); try reflexivity; discriminate Ho.
Qed.

Lemma satisfied_then_expectations_pass_witness :
  outcome (run guideRequest sluggish (writeAt 1 readyApp) bareApp 3)
  = Some Satisfied /\
  exists k, (k <= 3)%nat /\
    evals (run guideRequest sluggish (writeAt 1 readyApp) bareApp 3) = S k /\
    componentsExpectations (hostHeap (writeAt 1 readyApp) bareApp k)
    = Normal true.
Proof.
  split; [reflexivity |].
  exact (satisfied_then_expectations_pass sluggish (writeAt 1 readyApp)
           bareApp 3 eq_refl).
Defined.

(** X4.  The condition is stricter than the expectations: when
    [openmct.components.ObjectView] is defined but falsy ([null], [false],
    [0] or the empty string) both expectations would pass, yet the
    condition is false; if the host then leaves [openmct] alone the wait
    never resolves. *)
Theorem defined_but_falsy_never_resolves (lag : nat -> Z)
    (props cprops : list (string * value)) :
  lookup "components" props = VObject cprops ->
  toBeDefined (lookup "ObjectView" cprops) = true ->
  truthy (lookup "ObjectView" cprops) = false ->
  componentsExpectations (VObject props) = Normal true /\
  forall n, outcome (run guideRequest lag idleHost (VObject props) n) = None /\
            evals (run guideRequest lag idleHost (VObject props) n) = S n.
Proof.
  intros Hc Hdef Hfalsy. split.
  - unfold componentsExpectations. cbn [getProp]. rewrite Hc.
    cbn [getProp toBeDefined andb]. rewrite Hdef. reflexivity.
  - intro n. rewrite run_polling; [split; reflexivity |].
    intros i _. rewrite guide_idle.
    unfold verdictOn. cbn [predicate guideRequest readOnly snd].
    unfold componentsReady.
    cbn [getProp]. rewrite Hc. cbn [truthy getProp]. rewrite Hfalsy.
    reflexivity.
Qed.

Lemma defined_but_falsy_never_resolves_witness :
  componentsExpectations stalledApp = Normal true /\
  forall n, outcome (run guideRequest sluggish idleHost stalledApp n) = None /\
            evals (run guideRequest sluggish idleHost stalledApp n) = S n.
Proof.
  exact (defined_but_falsy_never_resolves sluggish
           [("components"%string, VObject [("ObjectView"%string, VNull)])]
           [("ObjectView"%string, VNull)] eq_refl eq_refl eq_refl).
Defined.

(** ** Invariants of the loop *)

(** X5.  At every round at most one timer is pending, a timer is pending
    only while the wait is unsettled and nothing has escaped, and the
    pending timer is due exactly 50 ms after the time of the last
    evaluation. *)
Theorem at_most_one_timer {Heap : Type} (r : WaitRequest Heap)
    (lag : nat -> Z) (host : nat -> Heap -> Heap) (h : Heap) (n : nat) :
  timers (run r lag host h n) = [] \/
  (timers (run r lag host h n) = [now (run r lag host h n) + 50] /\
   outcome (run r lag host h n) = None /\
   uncaught (run r lag host h n) = []).
Proof.
  destruct (run_shape r lag host h n)
    as [Hall Hs | k Hk Hfirst Hs | e H0 Hs | k e Hk Hfirst Hs]; rewrite Hs;
    [right | left; reflexivity | left; reflexivity | left; reflexivity].
  cbn [timers now outcome promise uncaught pollingAt].
  split; [| split; reflexivity].
  reflexivity.
Qed.

(** X6.  Evaluations are at least 50 ms apart, and later by whatever
    the timers are late: when the first true result comes at evaluation
    [k], every round up to it is at 50 ms a round plus the lateness of
    the timers fired so far, so never before 50 ms a round; each round
    before [k] takes at least 50 ms; and from round [k] on the clock of
    the loop stays where the wait was resolved. *)
Theorem resolution_time {Heap : Type} (r : WaitRequest Heap)
    (lag : nat -> Z) (host : nat -> Heap -> Heap) (h : Heap) (k : nat) :
  firstTrueAt r host h k ->
  forall n,
    now (run r lag host h n) = clockAt lag (Nat.min n k) /\
    50 * Z.of_nat (Nat.min n k) <= now (run r lag host h n) /\
    50 * Z.of_nat (Nat.min (S n) k - Nat.min n k)
    <= now (run r lag host h (S n)) - now (run r lag host h n) /\
    now (run r lag host h (n + k)) = now (run r lag host h k).
Proof.
  intros Hfirst.
  assert (Hnow : forall n,
             now (run r lag host h n) = clockAt lag (Nat.min n k)).
  { intro n. destruct (Nat.le_gt_cases k n) as [Hle | Hgt].
    - rewrite (run_fulfilled r lag host h k n Hfirst Hle).
      rewrite Nat.min_r by exact Hle. reflexivity.
    - rewrite run_polling by (intros i Hi; apply Hfirst; lia).
      rewrite Nat.min_l by lia. reflexivity. }
  intro n. split; [apply Hnow |]. split; [| split].
  - rewrite Hnow. apply clockAt_lower.
  - rewrite !Hnow.
    destruct (Nat.le_gt_cases k n) as [Hle | Hgt].
    + rewrite !Nat.min_r by lia. rewrite Nat.sub_diag. cbn. lia.
    + rewrite !Nat.min_l by lia.
      replace (S n - n)%nat with 1%nat by lia.
      pose proof (clockAt_step lag n). lia.
  - rewrite !Hnow. rewrite Nat.min_r by lia. rewrite Nat.min_id.
    reflexivity.
Qed.

Lemma resolution_time_witness :
  firstTrueAt guideRequest (writeAt 1 readyApp) bareApp 2 /\
  forall n,
    now (run guideRequest sluggish (writeAt 1 readyApp) bareApp n)
    = clockAt sluggish (Nat.min n 2) /\
    50 * Z.of_nat (Nat.min n 2)
    <= now (run guideRequest sluggish (writeAt 1 readyApp) bareApp n) /\
    50 * Z.of_nat (Nat.min (S n) 2 - Nat.min n 2)
    <= now (run guideRequest sluggish (writeAt 1 readyApp) bareApp (S n))
       - now (run guideRequest sluggish (writeAt 1 readyApp) bareApp n) /\
    now (run guideRequest sluggish (writeAt 1 readyApp) bareApp (n + 2))
    = now (run guideRequest sluggish (writeAt 1 readyApp) bareApp 2).
Proof.
  assert (Hfirst : firstTrueAt guideRequest (writeAt 1 readyApp) bareApp 2).
  { split; [| reflexivity].
    intros i Hi. destruct i as [| [| i]]; [reflexivity | reflexivity | lia]. }
  split; [exact Hfirst |].
  exact (resolution_time guideRequest sluggish (writeAt 1 readyApp) bareApp 2
           Hfirst).
Defined.
(** ** The timer queue *)

Lemma filter_none {A : Type} (f : A -> bool) (l : list A) :
  Forall (fun a => f a = false) l -> filter f l = [].
Proof.
  intro H. induction H as [| a l' Ha Hl IH]; [reflexivity |].
  cbn [filter]. rewrite Ha. exact IH.
Qed.

Lemma filter_all {A : Type} (f : A -> bool) (l : list A) :
  Forall (fun a => f a = true) l -> filter f l = l.
Proof.
  intro H. induction H as [| a l' Ha Hl IH]; [reflexivity |].
  cbn [filter]. rewrite Ha, IH. reflexivity.
Qed.

Section QueueFacts.

Context {St Cb : Type}.
Variable exec : Cb -> Z -> St -> St * list (Z * Cb).

Let Timer := EventLoop.Timer Cb.
Let dueLe (a b : Timer) : Prop := EventLoop.due a <= EventLoop.due b.

Lemma enqueue_Forall (P : Timer -> Prop) (t : Timer) (q : list Timer) :
  P t -> Forall P q -> Forall P (EventLoop.enqueue t q).
Proof.
  intros Ht Hq. induction Hq as [| u q' Hu Hq' IH]; cbn [EventLoop.enqueue].
  - constructor; [exact Ht | constructor].
  - destruct (EventLoop.due t <? EventLoop.due u).
    + constructor; [exact Ht | constructor; assumption].
    + constructor; assumption.
Qed.

Lemma enqueue_sorted (t : Timer) (q : list Timer) :
  StronglySorted dueLe q -> StronglySorted dueLe (EventLoop.enqueue t q).
Proof.
  intro Hq. induction Hq as [| u q' Hq' IH Hu]; cbn [EventLoop.enqueue].
  - constructor; [constructor | constructor].
  - destruct (Z.ltb_spec (EventLoop.due t) (EventLoop.due u)) as [Hlt | Hge].
    + constructor; [constructor; assumption |].
      constructor; [unfold dueLe; lia |].
      eapply Forall_impl; [| exact Hu].
      intros a Ha. unfold dueLe in *. lia.
    + constructor; [exact IH |].
      apply enqueue_Forall; [exact Hge | exact Hu].
Qed.

Lemma schedule_sorted (now : Z) (calls : list (Z * Cb)) (q : list Timer) :
  StronglySorted dueLe q ->
  StronglySorted dueLe (EventLoop.schedule now calls q).
Proof.
  revert q. induction calls as [| call calls IH]; intros q Hq.
  - exact Hq.
  - cbn [EventLoop.schedule fold_left]. apply IH. apply enqueue_sorted.
    exact Hq.
Qed.

Lemma schedule_Forall (P : Timer -> Prop) (now : Z)
    (calls : list (Z * Cb)) (q : list Timer) :
  Forall (fun call => P (EventLoop.timerOf now call)) calls ->
  Forall P q -> Forall P (EventLoop.schedule now calls q).
Proof.
  intro Hcalls. revert q.
  induction Hcalls as [| call calls Hc Hcs IH]; intros q Hq.
  - exact Hq.
  - cbn [EventLoop.schedule fold_left]. apply IH. apply enqueue_Forall;
      assumption.
Qed.

(** In a queue in firing order, a new timer goes right behind the timers
    due no later than itself. *)
Lemma enqueue_split (t : Timer) (q : list Timer) :
  StronglySorted dueLe q ->
  EventLoop.enqueue t q =
  filter (fun u => EventLoop.due u <=? EventLoop.due t) q ++
  t :: filter (fun u => EventLoop.due t <? EventLoop.due u) q.
Proof.
  intro Hq. induction Hq as [| u q' Hq' IH Hu]; cbn [EventLoop.enqueue filter].
  - reflexivity.
  - destruct (Z.ltb_spec (EventLoop.due t) (EventLoop.due u)) as [Hlt | Hge].
    + destruct (Z.leb_spec (EventLoop.due u) (EventLoop.due t)); [lia |].
      assert (Hnone : filter (fun v => EventLoop.due v <=? EventLoop.due t) q'
                      = []).
      { apply filter_none. eapply Forall_impl; [| exact Hu].
        intros v Hv. unfold dueLe in Hv. apply Z.leb_gt. lia. }
      assert (Hall : filter (fun v => EventLoop.due t <? EventLoop.due v) q'
                     = q').
      { apply filter_all. eapply Forall_impl; [| exact Hu].
        intros v Hv. unfold dueLe in Hv. apply Z.ltb_lt. lia. }
      rewrite Hnone, Hall. reflexivity.
    + destruct (Z.leb_spec (EventLoop.due u) (EventLoop.due t)); [| lia].
      rewrite IH. reflexivity.
Qed.

Lemma filter_length_enqueue (f : Timer -> bool) (t : Timer) (q : list Timer) :
  List.length (filter f (EventLoop.enqueue t q)) =
  (List.length (filter f [t]) + List.length (filter f q))%nat.
Proof.
  induction q as [| u q' IH]; cbn [EventLoop.enqueue].
  - cbn [filter]. destruct (f t); cbn; lia.
  - destruct (EventLoop.due t <? EventLoop.due u).
    + cbn [filter]. destruct (f t), (f u); cbn; lia.
    + cbn [filter] in *. destruct (f t), (f u); cbn [List.length] in *; lia.
Qed.

Lemma filter_length_schedule (f : Timer -> bool) (now : Z)
    (calls : list (Z * Cb)) (q : list Timer) :
  List.length (filter f (EventLoop.schedule now calls q)) =
  (List.length (filter f (map (EventLoop.timerOf now) calls)) +
   List.length (filter f q))%nat.
Proof.
  revert q. induction calls as [| call calls IH]; intro q.
  - reflexivity.
  - cbn [EventLoop.schedule fold_left map].
    change (fold_left _ calls ?q0) with (EventLoop.schedule now calls q0).
    rewrite IH, filter_length_enqueue. cbn [filter].
    destruct (f (EventLoop.timerOf now call)); cbn [List.length]; lia.
Qed.

Lemma play_app (q1 q2 : list Timer) (cs : Z * St) :
  EventLoop.play exec (q1 ++ q2) cs =
  EventLoop.play exec q2 (EventLoop.play exec q1 cs).
Proof.
  unfold EventLoop.play. apply fold_left_app.
Qed.

(** Closures that make no [setTimeout] call run off the queue in order. *)
Lemma ticks_play (q rest : list Timer) (c : Z) (s : St) :
  Forall (fun t => EventLoop.quiet exec (EventLoop.cb t)) q ->
  EventLoop.ticks exec (List.length q)
    {| EventLoop.clock := c; EventLoop.queue := q ++ rest;
       EventLoop.state := s |} =
  {| EventLoop.clock := fst (EventLoop.play exec q (c, s));
     EventLoop.queue := rest;
     EventLoop.state := snd (EventLoop.play exec q (c, s)) |}.
Proof.
  intro Hq. revert c s.
  induction Hq as [| t q' Ht Hq' IH]; intros c s.
  - reflexivity.
  - cbn [List.length EventLoop.ticks app].
    unfold EventLoop.tick at 1.
    cbn [EventLoop.queue EventLoop.clock EventLoop.state].
    specialize (Ht (Z.max c (EventLoop.due t)) s).
    destruct (exec (EventLoop.cb t) (Z.max c (EventLoop.due t)) s)
      as [s1 calls] eqn:E.
    cbn [snd] in Ht. subst calls. cbn [EventLoop.schedule fold_left].
    assert (Hstep : EventLoop.play1 exec (c, s) t
                    = (Z.max c (EventLoop.due t), s1)).
    { unfold EventLoop.play1. cbn [fst snd]. rewrite E. reflexivity. }
    rewrite IH. unfold EventLoop.play. cbn [fold_left]. rewrite Hstep.
    reflexivity.
Qed.

Lemma ticks_empty (n : nat) (w : EventLoop.World St Cb) :
  EventLoop.queue w = [] -> EventLoop.ticks exec n w = w.
Proof.
  intro Hq. induction n as [| n IH]; [reflexivity |].
  cbn [EventLoop.ticks]. unfold EventLoop.tick. rewrite Hq. exact IH.
Qed.

Lemma length_enqueue (t : Timer) (q : list Timer) :
  List.length (EventLoop.enqueue t q) = S (List.length q).
Proof.
  induction q as [| u q' IH]; [reflexivity |].
  cbn [EventLoop.enqueue]. destruct (EventLoop.due t <? EventLoop.due u).
  - reflexivity.
  - cbn [List.length]. rewrite IH. reflexivity.
Qed.

Lemma length_schedule (now : Z) (calls : list (Z * Cb)) (q : list Timer) :
  List.length (EventLoop.schedule now calls q)
  = (List.length calls + List.length q)%nat.
Proof.
  revert q. induction calls as [| call calls IH]; intro q; [reflexivity |].
  cbn [EventLoop.schedule fold_left].
  change (fold_left _ calls ?q0) with (EventLoop.schedule now calls q0).
  rewrite IH, length_enqueue. cbn [List.length]. lia.
Qed.

(** The queue a test body leaves when its last [setTimeout] call is a
    check: the earlier calls due by the check's time, the check, the
    rest. *)
Lemma boot_check_queue (s : St) (calls : list (Z * Cb)) (chk : Z * Cb) :
  EventLoop.queue (EventLoop.boot s (calls ++ [chk])) =
  filter (fun u => EventLoop.due u <=? EventLoop.due (EventLoop.timerOf 0 chk))
    (EventLoop.schedule 0 calls []) ++
  EventLoop.timerOf 0 chk ::
  filter (fun u => EventLoop.due (EventLoop.timerOf 0 chk) <? EventLoop.due u)
    (EventLoop.schedule 0 calls []).
Proof.
  unfold EventLoop.boot. cbn [EventLoop.queue].
  unfold EventLoop.schedule at 1. rewrite fold_left_app. cbn [fold_left].
  apply enqueue_split. apply schedule_sorted. constructor.
Qed.

End QueueFacts.

(** ** The mock event emitter *)

Lemma filter_filter_length {A : Type} (f g : A -> bool) (l : list A) :
  List.length (filter g (filter f l))
  = List.length (filter (fun a => f a && g a) l).
Proof.
  induction l as [| a l' IH]; [reflexivity |].
  cbn [filter]. destruct (f a); cbn [andb filter];
    [destruct (g a); cbn [List.length]; rewrite IH; reflexivity | exact IH].
Qed.

Lemma Forall_filter {A : Type} (P : A -> Prop) (f : A -> bool) (l : list A) :
  Forall P l -> Forall P (filter f l).
Proof.
  intro H. induction H as [| a l' Ha Hl IH]; [constructor |].
  cbn [filter]. destruct (f a); [constructor; assumption | exact IH].
Qed.

Lemma filter_map_length {A B : Type} (f : A -> B) (p : B -> bool)
    (l : list A) :
  List.length (filter p (map f l))
  = List.length (filter (fun a => p (f a)) l).
Proof.
  induction l as [| a l' IH]; [reflexivity |].
  cbn [map filter]. destruct (p (f a)); cbn [List.length]; rewrite IH;
    reflexivity.
Qed.

Lemma filter_and_split_length {A : Type} (f g d : A -> bool) (l : list A) :
  (forall a, g a = negb (f a)) ->
  (List.length (filter (fun a => f a && d a) l) +
   List.length (filter (fun a => g a && d a) l))%nat
  = List.length (filter d l).
Proof.
  intro Hfg. induction l as [| a l' IH]; [reflexivity |].
  cbn [filter]. rewrite (Hfg a).
  destruct (f a), (d a); cbn [negb andb List.length]; lia.
Qed.

Section EmitterFacts.

Import EventLoop Emitter.

Variable epoch : Z.
Hypothesis epoch_pos : 0 < epoch.

Let isDeliver (t : Timer Closure) : Prop :=
  match cb t with Deliver _ _ => True | _ => False end.

Let isDeliverResolve (t : Timer Closure) : Prop :=
  match cb t with DeliverResolve _ _ => True | _ => False end.

Let delivered (q : list (Timer Closure)) : nat :=
  List.length (filter (fun t => delivers (cb t)) q).

Lemma exec_quiet (c : Closure) : quiet (exec epoch) c.
Proof.
  intros now s. destruct c as [l data | l data |]; cbn [exec];
    try destruct (callback l data); reflexivity.
Qed.

Lemma all_quiet (q : list (Timer Closure)) :
  Forall (fun t => quiet (exec epoch) (cb t)) q.
Proof.
  apply Forall_forall. intros t _. apply exec_quiet.
Qed.

Lemma registerAll_from (ls : list Listener) (s : Vars) :
  let s' := fold_left (fun s l => on (event l) (callback l) s) ls s in
  listeners s' = listeners s ++ ls /\
  eventCount s' = eventCount s /\ lastEventTime s' = lastEventTime s /\
  unresolved s' = unresolved s /\ failures s' = failures s /\
  completed s' = completed s /\ escaped s' = escaped s.
Proof.
  revert s. induction ls as [| l ls IH]; intro s; cbn [fold_left].
  - rewrite app_nil_r. repeat split.
  - destruct (IH (on (event l) (callback l) s))
      as (Hl & Hc & Ht & Hu & Hf & Hd & He).
    cbn zeta. rewrite Hl, Hc, Ht, Hu, Hf, Hd, He.
    cbn [on listeners eventCount lastEventTime unresolved failures
         completed escaped].
    rewrite <- app_assoc. destruct l. repeat split.
Qed.

(** Deliveries of the first form of [emit], run in any order from a
    time that is not negative. *)
Lemma play_deliveries (q : list (Timer Closure)) (c : Z) (s : Vars) :
  Forall isDeliver q -> 0 <= c ->
  let r := play (exec epoch) q (c, s) in
  c <= fst r /\
  eventCount (snd r) = (eventCount s + delivered q)%nat /\
  failures (snd r) = failures s /\
  completed (snd r) = completed s /\
  (delivered q = 0%nat -> lastEventTime (snd r) = lastEventTime s) /\
  ((0 < delivered q)%nat -> 0 < lastEventTime (snd r)).
Proof.
  intro Hq. revert c s.
  induction Hq as [| t q' Ht Hq' IH]; intros c s Hc.
  - cbn. repeat split; try reflexivity; lia.
  - unfold play. cbn [fold_left].
    change (fold_left (play1 (exec epoch)) q' ?x)
      with (play (exec epoch) q' x).
    unfold isDeliver in Ht. unfold delivered. cbn [filter].
    destruct t as [d k]. cbn [cb] in Ht |- *.
    destruct k as [l data | l data |]; try contradiction.
    unfold play1 at 1 2 3 4 5 6. cbn [fst snd due cb exec delivers].
    destruct (callback l data) as [u | e]; cbn [fst].
    + specialize (IH (Z.max c d) (bump (epoch + Z.max c d) s)
                     ltac:(lia)).
      cbn zeta in IH. destruct IH as (H1 & H2 & H3 & H4 & H5 & H6).
      unfold delivered in *. cbn [List.length].
      cbn [bump eventCount failures completed lastEventTime] in *.
      set (m := List.length (filter (fun t => delivers (cb t)) q')) in *.
      split; [lia | split; [lia | split; [exact H3 | split; [exact H4 |]]]].
      split; [intro Hz; discriminate Hz |].
      intros _. destruct m as [| m'].
      * rewrite H5 by reflexivity. lia.
      * apply H6. lia.
    + specialize (IH (Z.max c d) (escape e s) ltac:(lia)).
      cbn zeta in IH. destruct IH as (H1 & H2 & H3 & H4 & H5 & H6).
      unfold delivered in *.
      cbn [escape eventCount failures completed lastEventTime] in *.
      split; [lia | split; [lia | split; [exact H3 | split; [exact H4 |]]]].
      split; assumption.
Qed.

Lemma withDelays_deliver (data : value) (rand : nat -> Z) (i : nat)
    (ls : list Listener) :
  Forall (fun call => isDeliver (timerOf 0 call))
    (withDelays (fun l => Deliver l data) rand i ls).
Proof.
  revert i. induction ls as [| l ls IH]; intro i; cbn [withDelays].
  - constructor.
  - constructor; [exact I | apply IH].
Qed.

Lemma deliveredBy_timers (limit : Z) (calls : list (Z * Closure)) :
  List.length
    (filter (fun u => (due u <=? limit) && delivers (cb u))
       (map (timerOf 0) calls))
  = deliveredBy limit calls.
Proof.
  unfold deliveredBy.
  induction calls as [| call calls IH]; [reflexivity |].
  cbn [map filter timerOf due cb]. rewrite Z.add_0_l.
  destruct ((Z.max 0 (fst call) <=? limit) && delivers (snd call));
    cbn [List.length]; rewrite IH; reflexivity.
Qed.

(** The first form of the test, run to the end: the check finds as many
    events counted as there were deliveries due by 50 ms whose listener
    returned normally. *)
Lemma flaky_final (ls : list Listener) (ev : string) (data : value)
    (rand : nat -> Z) :
  let calls := emit ev data rand (registerAll ls) in
  let w := ticks (exec epoch) (S (List.length calls))
             (flakyRun ev data rand (registerAll ls)) in
  queue w = [] /\
  completed (state w) = true /\
  failures (state w) =
    (if Nat.eqb (deliveredBy 50 calls) 3 then [] else ["eventCount"%string]) ++
    (if Nat.eqb (deliveredBy 50 calls) 0 then ["lastEventTime"%string] else [])
  /\
  eventCount (state w)
  = List.length (filter (fun call => delivers (snd call)) calls).
Proof.
  intros calls w.
  destruct (registerAll_from ls initial) as (_ & Hc0 & Ht0 & _ & Hf0 & _).
  cbn zeta in Hc0, Ht0, Hf0. fold (registerAll ls) in Hc0, Ht0, Hf0.
  cbn [initial eventCount lastEventTime failures] in Hc0, Ht0, Hf0.
  set (s := registerAll ls) in *.
  set (Q := schedule 0 calls []).
  set (chk := timerOf 0 (50, CheckEarly)).
  assert (Hqueue : queue (flakyRun ev data rand s)
                   = filter (fun u => due u <=? 50) Q ++
                     chk :: filter (fun u => 50 <? due u) Q).
  { unfold flakyRun. fold calls. apply boot_check_queue. }
  assert (Hlen : S (List.length calls)
                 = List.length (queue (flakyRun ev data rand s))).
  { unfold flakyRun. fold calls. unfold boot. cbn [queue].
    rewrite length_schedule, length_app. cbn [List.length]. lia. }
  assert (HQ : Forall isDeliver Q).
  { apply schedule_Forall; [apply withDelays_deliver | constructor]. }
  set (early := filter (fun u => due u <=? 50) Q) in *.
  set (late := filter (fun u => 50 <? due u) Q) in *.
  assert (Hw : w = {| clock := fst (play (exec epoch) (early ++ chk :: late)
                                      (0, s));
                      queue := [];
                      state := snd (play (exec epoch) (early ++ chk :: late)
                                      (0, s)) |}).
  { assert (Hrun : flakyRun ev data rand s
                   = {| clock := 0; queue := (early ++ chk :: late) ++ [];
                        state := s |}).
    { rewrite app_nil_r, <- Hqueue. reflexivity. }
    subst w. rewrite Hlen, Hqueue, Hrun. apply ticks_play. apply all_quiet. }
  rewrite Hw. cbn [queue state]. split; [reflexivity |].
  rewrite play_app.
  destruct (play_deliveries early 0 s
              (Forall_filter _ _ _ HQ) (Z.le_refl 0))
    as (Hclk & Hcount & Hfail & _ & Hzero & Hpos).
  cbn zeta in Hclk, Hcount, Hfail, Hzero, Hpos.
  assert (Hm : delivered early = deliveredBy 50 calls).
  { unfold delivered, early, Q. rewrite filter_filter_length.
    rewrite filter_length_schedule. cbn [filter List.length].
    rewrite Nat.add_0_r. apply deliveredBy_timers. }
  assert (Htotal : (delivered early + delivered late)%nat
                   = List.length (filter (fun call => delivers (snd call))
                                    calls)).
  { unfold delivered, early, late. rewrite !filter_filter_length.
    rewrite filter_and_split_length by (intro u; apply Z.ltb_antisym).
    unfold Q. rewrite filter_length_schedule. cbn [filter List.length].
    rewrite Nat.add_0_r. rewrite filter_map_length. reflexivity. }
  rewrite Hm in Hcount, Hzero, Hpos, Htotal.
  destruct (play (exec epoch) early (0, s)) as [c1 s1] eqn:E1.
  cbn [fst snd] in Hclk, Hcount, Hfail, Hzero, Hpos.
  unfold play at 1 2 3. cbn [fold_left].
  change (fold_left (play1 (exec epoch)) late ?x)
    with (play (exec epoch) late x).
  unfold play1 at 1 2 3. cbn [fst snd cb chk timerOf exec].
  destruct (play_deliveries late (Z.max c1 (due chk)) (expectAndFinish s1)
              (Forall_filter _ _ _ HQ) ltac:(lia))
    as (_ & Hcount2 & Hfail2 & Hdone2 & _).
  cbn zeta in Hcount2, Hfail2, Hdone2.
  split; [rewrite Hdone2; reflexivity |].
  split.
  - rewrite Hfail2. cbn [expectAndFinish failures]. rewrite Hfail, Hf0.
    cbn [app]. unfold failed. rewrite Hcount, Hc0. cbn [Nat.add].
    f_equal.
    destruct (deliveredBy 50 calls) as [| m].
    + rewrite Hzero by reflexivity. rewrite Ht0. reflexivity.
    + cbn [Nat.eqb]. destruct (Z.ltb_spec 0 (lastEventTime s1)) as [_ | Hle];
        [reflexivity |].
      specialize (Hpos ltac:(lia)). lia.
  - rewrite Hcount2. cbn [expectAndFinish eventCount].
    rewrite Hcount, Hc0, <- Htotal. reflexivity.
Qed.

(** Deliveries of the fixed form of [emit], as long as more promises
    are unresolved than listeners return. *)
Lemma play_resolving (q : list (Timer Closure)) (c : Z) (s : Vars) :
  Forall isDeliverResolve q -> 0 <= c ->
  (delivered q < unresolved s)%nat ->
  let r := play (exec epoch) q (c, s) in
  c <= fst r /\
  eventCount (snd r) = (eventCount s + delivered q)%nat /\
  unresolved (snd r) = (unresolved s - delivered q)%nat /\
  failures (snd r) = failures s /\
  completed (snd r) = completed s.
Proof.
  intro Hq. revert c s.
  induction Hq as [| t q' Ht Hq' IH]; intros c s Hc Hlt.
  - cbn. repeat split; try reflexivity; lia.
  - unfold play. cbn [fold_left].
    change (fold_left (play1 (exec epoch)) q' ?x)
      with (play (exec epoch) q' x).
    unfold isDeliverResolve in Ht. unfold delivered in *. cbn [filter] in *.
    destruct t as [d k]. cbn [cb] in Ht, Hlt |- *.
    destruct k as [l data | l data |]; try contradiction.
    unfold play1 at 1 2 3 4 5. cbn [fst snd due cb exec delivers] in *.
    destruct (callback l data) as [u | e]; cbn [fst List.length] in *.
    + set (m := List.length (filter (fun t => delivers (cb t)) q')) in *.
      assert (Hres : resolveOne (bump (epoch + Z.max c d) s)
                     = {| listeners := listeners s;
                          eventCount := S (eventCount s);
                          lastEventTime := epoch + Z.max c d;
                          unresolved := Nat.pred (unresolved s);
                          failures := failures s; completed := completed s;
                          escaped := escaped s |}).
      { unfold resolveOne.
        cbn [bump listeners eventCount lastEventTime unresolved failures
             completed escaped].
        destruct (Nat.eqb_spec (Nat.pred (unresolved s)) 0) as [Hz | _];
          [lia | reflexivity]. }
      rewrite Hres.
      match goal with
      | |- context [play (exec epoch) q' (?c1, ?s1)] =>
          specialize (IH c1 s1 ltac:(lia))
      end.
      cbn [unresolved eventCount failures completed] in IH.
      specialize (IH ltac:(fold m; lia)). cbn zeta in IH. fold m in IH.
      destruct IH as (H1 & H2 & H3 & H4 & H5).
      split; [lia | split; [lia | split; [lia | split; assumption]]].
    + specialize (IH (Z.max c d) (escape e s) ltac:(lia)).
      cbn [escape unresolved eventCount failures completed] in IH.
      specialize (IH Hlt). cbn zeta in IH.
      destruct IH as (H1 & H2 & H3 & H4 & H5).
      split; [lia | split; [lia | split; [lia | split; assumption]]].
Qed.

Lemma length_withDelays (mk : Listener -> Closure) (rand : nat -> Z)
    (i : nat) (ls : list Listener) :
  List.length (withDelays mk rand i ls) = List.length ls.
Proof.
  revert i. induction ls as [| l ls IH]; intro i; [reflexivity |].
  cbn [withDelays List.length]. rewrite IH. reflexivity.
Qed.

Lemma withDelays_resolve (data : value) (rand : nat -> Z) (i : nat)
    (ls : list Listener) :
  Forall (fun call => isDeliverResolve (timerOf 0 call))
    (withDelays (fun l => DeliverResolve l data) rand i ls).
Proof.
  revert i. induction ls as [| l ls IH]; intro i; cbn [withDelays].
  - constructor.
  - constructor; [exact I | apply IH].
Qed.

Lemma withDelays_delivers (data : value) (rand : nat -> Z) (i : nat)
    (ls : list Listener) :
  Forall (fun l => delivers (DeliverResolve l data) = true) ls ->
  Forall (fun call => delivers (cb (timerOf 0 call)) = true)
    (withDelays (fun l => DeliverResolve l data) rand i ls).
Proof.
  intro H. revert i. induction H as [| l ls' Hl Hls IH]; intro i;
    cbn [withDelays].
  - constructor.
  - constructor; [exact Hl | apply IH].
Qed.

Lemma Forall_firstn' {A : Type} (P : A -> Prop) (k : nat) (l : list A) :
  Forall P l -> Forall P (firstn k l).
Proof.
  intro H. revert k. induction H as [| a l' Ha Hl IH]; intro k.
  - destruct k; constructor.
  - destruct k as [| k]; [constructor |].
    cbn [firstn]. constructor; [exact Ha | apply IH].
Qed.

Lemma filter_firstn_le {A : Type} (f : A -> bool) (k : nat) (l : list A) :
  (List.length (filter f (firstn k l)) <= k)%nat /\
  (List.length (filter f (firstn k l)) <= List.length (filter f l))%nat.
Proof.
  revert k. induction l as [| a l' IH]; intro k.
  - destruct k; cbn; lia.
  - destruct k as [| k]; [cbn; lia |].
    cbn [firstn filter List.length]. destruct (IH k) as [H1 H2].
    destruct (f a); cbn [List.length]; lia.
Qed.

(** The fixed form of the test after [k] timers, [k] within the number
    of deliveries. *)
Lemma fixed_prefix (s : Vars) (ev : string) (data : value) (rand : nat -> Z)
    (k : nat) :
  let Q := queue (fixedRun ev data rand s) in
  (k <= List.length Q)%nat ->
  ticks (exec epoch) k (fixedRun ev data rand s) =
  {| clock := fst (play (exec epoch) (firstn k Q)
                     (0, state (fixedRun ev data rand s)));
     queue := skipn k Q;
     state := snd (play (exec epoch) (firstn k Q)
                     (0, state (fixedRun ev data rand s))) |}.
Proof.
  intros Q Hk.
  assert (Hrun : fixedRun ev data rand s
                 = {| clock := 0; queue := firstn k Q ++ skipn k Q;
                      state := state (fixedRun ev data rand s) |}).
  { rewrite firstn_skipn. reflexivity. }
  rewrite Hrun at 1.
  replace k with (List.length (firstn k Q)) at 1
    by (rewrite length_firstn; lia).
  apply ticks_play. apply all_quiet.
Qed.

Lemma fixedRun_shape (ls : list Listener) (ev : string) (data : value)
    (rand : nat -> Z) :
  (0 < List.length (matching ev (registerAll ls)))%nat ->
  state (fixedRun ev data rand (registerAll ls)) =
    {| listeners := ls; eventCount := 0; lastEventTime := 0;
       unresolved := List.length (matching ev (registerAll ls));
       failures := []; completed := false; escaped := [] |}.
Proof.
  intro Hn.
  destruct (registerAll_from ls initial) as (Hl & Hc & Ht & Hu & Hf & Hd & He).
  cbn zeta in Hl, Hc, Ht, Hu, Hf, Hd, He.
  fold (registerAll ls) in Hl, Hc, Ht, Hu, Hf, Hd, He.
  unfold fixedRun, boot. cbn [state].
  unfold emitAsync. rewrite length_withDelays.
  destruct (Nat.eqb_spec (List.length (matching ev (registerAll ls))) 0)
    as [Hz | _]; [lia |].
  rewrite Hl, Hc, Ht, Hf, Hd, He. reflexivity.
Qed.

Lemma fixedRun_queue (s : Vars) (ev : string) (data : value)
    (rand : nat -> Z) :
  List.length (queue (fixedRun ev data rand s))
    = List.length (matching ev s) /\
  Forall isDeliverResolve (queue (fixedRun ev data rand s)).
Proof.
  unfold fixedRun, boot. cbn [queue]. split.
  - rewrite length_schedule. unfold emitAsync. rewrite length_withDelays.
    cbn [List.length]. lia.
  - apply schedule_Forall; [apply withDelays_resolve | constructor].
Qed.

(** The fixed form while fewer listeners have returned than there are
    promises: the test is not completed and nothing has been checked. *)
Lemma fixed_pending (ls : list Listener) (ev : string) (data : value)
    (rand : nat -> Z) (k : nat) :
  let s := registerAll ls in
  let Q := queue (fixedRun ev data rand s) in
  let w := ticks (exec epoch) k (fixedRun ev data rand s) in
  (k <= List.length Q)%nat ->
  (delivered (firstn k Q) < List.length Q)%nat ->
  0 <= clock w /\
  queue w = skipn k Q /\
  completed (state w) = false /\
  failures (state w) = [] /\
  eventCount (state w) = delivered (firstn k Q) /\
  unresolved (state w) = (List.length Q - delivered (firstn k Q))%nat.
Proof.
  intros s Q w Hk Hlt.
  destruct (fixedRun_queue s ev data rand) as [Hlen HQ].
  fold Q in Hlen, HQ.
  assert (Hn : (0 < List.length (matching ev s))%nat) by lia.
  pose proof (fixedRun_shape ls ev data rand Hn) as Hs0. fold s in Hs0.
  subst w. rewrite fixed_prefix by exact Hk. fold Q.
  cbn [clock queue state]. rewrite Hs0.
  match goal with
  | |- context [play (exec epoch) (firstn k Q) (0, ?s0)] =>
      destruct (play_resolving (firstn k Q) 0 s0
                  (Forall_firstn' _ _ _ HQ) (Z.le_refl 0))
        as (H1 & H2 & H3 & H4 & H5)
  end.
  - cbn [unresolved]. fold s. lia.
  - cbn zeta in H1, H2, H3, H4, H5.
    cbn [unresolved eventCount failures completed] in H2, H3, H4, H5.
    split; [exact H1 | split; [reflexivity |]].
    split; [exact H5 | split; [exact H4 | split; [exact H2 |]]].
    rewrite H3, Hlen. reflexivity.
Qed.

Lemma ticks_S_last (n : nat) (w : World Vars Closure) :
  ticks (exec epoch) (S n) w = tick (exec epoch) (ticks (exec epoch) n w).
Proof.
  revert w. induction n as [| n IH]; intro w; [reflexivity |].
  cbn [ticks] in *. rewrite <- IH. reflexivity.
Qed.

Lemma Forall_skipn' {A : Type} (P : A -> Prop) (k : nat) (l : list A) :
  Forall P l -> Forall P (skipn k l).
Proof.
  intro H. revert k. induction H as [| a l' Ha Hl IH]; intro k.
  - destruct k; constructor.
  - destruct k as [| k]; [constructor; assumption | apply IH].
Qed.

(** The fixed form when every listener returns: the last delivery
    resolves the last promise, and only then do the expectations run. *)
Lemma fixed_last (ls : list Listener) (ev : string) (data : value)
    (rand : nat -> Z) :
  let Q := queue (fixedRun ev data rand (registerAll ls)) in
  let w := ticks (exec epoch) (List.length Q)
             (fixedRun ev data rand (registerAll ls)) in
  (0 < List.length Q)%nat ->
  Forall (fun t => delivers (cb t) = true) Q ->
  queue w = [] /\
  completed (state w) = true /\
  eventCount (state w) = List.length Q /\
  failures (state w)
  = if Nat.eqb (List.length Q) 3 then [] else ["eventCount"%string].
Proof.
  intros Q w Hpos Hall.
  destruct (List.length Q) as [| k] eqn:En; [lia |].
  assert (Hcount : delivered (firstn k Q) = k).
  { unfold delivered.
    rewrite (filter_all _ _ (Forall_firstn' _ k _ Hall)).
    rewrite length_firstn. lia. }
  destruct (fixed_pending ls ev data rand k) as (Hc & Hq & Hd & Hf & He & Hu).
  { fold Q. lia. }
  { fold Q. rewrite Hcount. lia. }
  fold Q in Hq, He, Hu. rewrite Hcount in He, Hu. rewrite En in Hu.
  subst w. rewrite ticks_S_last.
  set (wk := ticks (exec epoch) k (fixedRun ev data rand (registerAll ls)))
    in *.
  assert (Hone : exists t, skipn k Q = [t] /\ isDeliverResolve t /\
                           delivers (cb t) = true).
  { destruct (fixedRun_queue (registerAll ls) ev data rand) as [_ HQ].
    fold Q in HQ.
    pose proof (Forall_skipn' _ k _ HQ) as H1.
    pose proof (Forall_skipn' _ k _ Hall) as H2.
    pose proof (length_skipn k Q) as H3. rewrite En in H3.
    destruct (skipn k Q) as [| t [| t' rest]]; cbn [List.length] in H3;
      try lia.
    exists t. split; [reflexivity |].
    split; [exact (Forall_inv H1) | exact (Forall_inv H2)]. }
  destruct Hone as (t & Ht & Hdr & Hdel).
  unfold tick. rewrite Hq, Ht.
  destruct t as [d c]. unfold isDeliverResolve in Hdr. cbn [cb due] in *.
  destruct c as [l dat | l dat |]; try contradiction.
  cbn [exec delivers] in *.
  destruct (callback l dat) as [u | e]; [| discriminate Hdel].
  cbn [queue state schedule fold_left].
  unfold resolveOne.
  cbn [bump listeners eventCount lastEventTime unresolved failures completed
       escaped].
  assert (Hu1 : unresolved (state wk) = 1%nat) by lia.
  rewrite Hu1. cbn [Nat.pred Nat.eqb].
  unfold expectAndFinish, failed.
  cbn [listeners eventCount lastEventTime unresolved failures completed
       escaped].
  rewrite He, Hf. cbn [app].
  destruct (Z.ltb_spec 0 (epoch + Z.max (clock wk) d)) as [_ | Hle]; [| lia].
  rewrite app_nil_r. repeat split.
Qed.

(** The fixed form when the listener of some delivery throws: the
    promise of that delivery is never resolved and the test never
    completes. *)
Lemma fixed_stuck (ls : list Listener) (ev : string) (data : value)
    (rand : nat -> Z) (k : nat) :
  let Q := queue (fixedRun ev data rand (registerAll ls)) in
  (delivered Q < List.length Q)%nat ->
  completed (state (ticks (exec epoch) k
                      (fixedRun ev data rand (registerAll ls)))) = false.
Proof.
  intros Q Hlt.
  destruct (Nat.le_gt_cases k (List.length Q)) as [Hle | Hgt].
  - destruct (fixed_pending ls ev data rand k) as (_ & _ & Hd & _).
    + fold Q. exact Hle.
    + fold Q. pose proof (filter_firstn_le (fun t => delivers (cb t)) k Q)
        as [_ H2]. unfold delivered in *. lia.
    + exact Hd.
  - destruct (fixed_pending ls ev data rand (List.length Q))
      as (_ & Hq & Hd & _).
    + fold Q. lia.
    + fold Q. rewrite firstn_all. exact Hlt.
    + fold Q in Hq. rewrite skipn_all in Hq.
      replace k with (List.length Q + (k - List.length Q))%nat by lia.
      clear Hgt. generalize (k - List.length Q)%nat as j. intro j.
      assert (Hadd : forall a b w0,
                 ticks (exec epoch) (a + b) w0
                 = ticks (exec epoch) b (ticks (exec epoch) a w0)).
      { induction a as [| a IH]; intros b w0; [reflexivity |].
        cbn [Nat.add ticks]. apply IH. }
      rewrite Hadd. rewrite ticks_empty by exact Hq. exact Hd.
Qed.

End EmitterFacts.

Lemma filter_length_lt {A : Type} (f : A -> bool) (l : list A) (a : A) :
  In a l -> f a = false ->
  (List.length (filter f l) < List.length l)%nat.
Proof.
  intros Hin Hf. induction l as [| b l' IH]; [contradiction |].
  cbn [filter List.length].
  pose proof (filter_length_le f l') as Hle.
  destruct Hin as [-> | Hin].
  - rewrite Hf. lia.
  - specialize (IH Hin). destruct (f b); cbn [List.length]; lia.
Qed.

Section EmitterTheorems.

Import EventLoop Emitter.

Lemma withDelays_app (mk : Listener -> Closure) (rand : nat -> Z) (i : nat)
    (a b : list Listener) :
  withDelays mk rand i (a ++ b)
  = withDelays mk rand i a ++ withDelays mk rand (i + List.length a) b.
Proof.
  revert i. induction a as [| l a IH]; intro i; cbn [app withDelays List.length].
  - rewrite Nat.add_0_r. reflexivity.
  - rewrite IH. replace (S i + List.length a)%nat
      with (i + S (List.length a))%nat by lia. reflexivity.
Qed.

Lemma withDelays_In (mk : Listener -> Closure) (rand : nat -> Z) (i : nat)
    (ls : list Listener) (l : Listener) :
  In l ls -> exists d, In (d, mk l) (withDelays mk rand i ls).
Proof.
  revert i. induction ls as [| l' ls IH]; intros i Hin; [contradiction |].
  cbn [withDelays]. destruct Hin as [-> | Hin].
  - exists (rand i). left. reflexivity.
  - destruct (IH (S i) Hin) as [d Hd]. exists d. right. exact Hd.
Qed.

(** X7.  [on] and [emit]: after one more registration, [emit] makes the
    same [setTimeout] calls as before, followed by one for the new
    listener when it was registered for the emitted event; a listener
    registered for another event gets none. *)
Theorem emit_after_on (s : Vars) (ev ev' : string)
    (f : value -> completion unit) (data : value) (rand : nat -> Z) :
  emit ev data rand (on ev' f s) =
  if String.eqb ev' ev
  then emit ev data rand s ++
       [(rand (List.length (emit ev data rand s)),
         Deliver {| event := ev'; callback := f |} data)]
  else emit ev data rand s.
Proof.
  unfold emit, matching. cbn [on listeners].
  rewrite filter_app. cbn [filter event].
  destruct (String.eqb ev' ev).
  - rewrite withDelays_app. cbn [withDelays Nat.add].
    rewrite length_withDelays. reflexivity.
  - rewrite app_nil_r. reflexivity.
Qed.

(** X8.  First form of the test, any registrations: when the queue has
    run, the test is completed, and its two expectations have passed
    exactly when three deliveries were due by 50 ms with a listener that
    returned; later deliveries are not seen by the check. *)
Theorem early_check_counts_deliveries_by_50 (epoch : Z) (ls : list Listener)
    (ev : string) (data : value) (rand : nat -> Z) :
  0 < epoch ->
  let calls := emit ev data rand (registerAll ls) in
  let w := ticks (exec epoch) (S (List.length calls))
             (flakyRun ev data rand (registerAll ls)) in
  queue w = [] /\
  completed (state w) = true /\
  (failures (state w) = [] <-> deliveredBy 50 calls = 3%nat).
Proof.
  intros Hpos calls w.
  destruct (flaky_final epoch Hpos ls ev data rand) as (Hq & Hd & Hf & _).
  fold calls in Hq, Hd, Hf. fold w in Hq, Hd, Hf.
  split; [exact Hq | split; [exact Hd |]].
  rewrite Hf.
  destruct (Nat.eqb_spec (deliveredBy 50 calls) 3) as [H3 | H3].
  - rewrite H3. cbn. split; reflexivity.
  - cbn [app]. split; [discriminate | intro; contradiction].
Qed.

Lemma early_check_counts_deliveries_by_50_witness :
  0 < 1700000000000 /\
  let calls := emit "test-event" testData (fun i => 20 + 10 * Z.of_nat i)
                 registered in
  let w := ticks (exec 1700000000000) (S (List.length calls))
             (flakyRun "test-event" testData (fun i => 20 + 10 * Z.of_nat i)
                registered) in
  queue w = [] /\
  completed (state w) = true /\
  (failures (state w) = [] <-> deliveredBy 50 calls = 3%nat).
Proof.
  split; [reflexivity |].
  exact (early_check_counts_deliveries_by_50 1700000000000
           [{| event := "test-event"; callback := noop |};
            {| event := "test-event"; callback := noop |};
            {| event := "test-event"; callback := noop |}]
           "test-event" testData (fun i => 20 + 10 * Z.of_nat i) eq_refl).
Defined.

(** X9.  First form of the test as written (three listeners
    [() => {}]): the expectations pass exactly when each of the three
    delays drawn is at most 50 ms. *)
Theorem flaky_emitter_test_passes_iff (epoch : Z) (rand : nat -> Z) :
  0 < epoch ->
  (failures (state (ticks (exec epoch) 4
                      (flakyRun "test-event" testData rand registered))) = []
   <-> rand 0%nat <= 50 /\ rand 1%nat <= 50 /\ rand 2%nat <= 50).
Proof.
  intro Hpos.
  pose proof (flaky_final epoch Hpos
                [{| event := "test-event"; callback := noop |};
                 {| event := "test-event"; callback := noop |};
                 {| event := "test-event"; callback := noop |}]
                "test-event" testData rand) as H.
  cbn zeta in H. destruct H as (_ & _ & Hf & _).
  change (failures (state (ticks (exec epoch) 4
            (flakyRun "test-event" testData rand registered))) =
          (if Nat.eqb (deliveredBy 50
                [(rand 0%nat, Deliver {| event := "test-event"; callback := noop |} testData);
                 (rand 1%nat, Deliver {| event := "test-event"; callback := noop |} testData);
                 (rand 2%nat, Deliver {| event := "test-event"; callback := noop |} testData)]) 3
           then [] else ["eventCount"%string]) ++
          (if Nat.eqb (deliveredBy 50
                [(rand 0%nat, Deliver {| event := "test-event"; callback := noop |} testData);
                 (rand 1%nat, Deliver {| event := "test-event"; callback := noop |} testData);
                 (rand 2%nat, Deliver {| event := "test-event"; callback := noop |} testData)]) 0
           then ["lastEventTime"%string] else [])) in Hf.
  rewrite Hf. unfold deliveredBy. cbn [filter fst snd delivers callback noop andb].
  destruct (Z.leb_spec (Z.max 0 (rand 0%nat)) 50);
    destruct (Z.leb_spec (Z.max 0 (rand 1%nat)) 50);
    destruct (Z.leb_spec (Z.max 0 (rand 2%nat)) 50);
    cbn [andb filter List.length Nat.eqb app];
    (split; [intro Hnil; try discriminate Hnil; lia | intro Hle; try reflexivity; lia]).
Qed.

Lemma flaky_emitter_test_passes_iff_witness :
  0 < 1700000000000 /\
  (failures (state (ticks (exec 1700000000000) 4
                      (flakyRun "test-event" testData
                         (fun i => 20 + 40 * Z.of_nat i) registered))) = []
   <-> 20 + 40 * Z.of_nat 0 <= 50 /\ 20 + 40 * Z.of_nat 1 <= 50 /\
       20 + 40 * Z.of_nat 2 <= 50).
Proof.
  split; [reflexivity |].
  exact (flaky_emitter_test_passes_iff 1700000000000
           (fun i => 20 + 40 * Z.of_nat i) eq_refl).
Defined.

Lemma withDelays_delivering (mk : Listener -> Closure) (rand : nat -> Z)
    (i : nat) (ls : list Listener) :
  List.length (filter (fun call => delivers (snd call))
                 (withDelays mk rand i ls))
  = List.length (filter (fun l => delivers (mk l)) ls).
Proof.
  revert i. induction ls as [| l ls IH]; intro i; [reflexivity |].
  cbn [withDelays filter snd]. destruct (delivers (mk l));
    cbn [List.length]; rewrite IH; reflexivity.
Qed.

(** X20.  First form of the test, any registrations and any delays: no
    delivery is lost.  Once the queue has run, [eventCount] is the number
    of listeners registered for the event whose callback returned, those
    delivered after the check included. *)
Theorem every_delivery_counted_in_the_end (epoch : Z) (ls : list Listener)
    (ev : string) (data : value) (rand : nat -> Z) :
  0 < epoch ->
  let calls := emit ev data rand (registerAll ls) in
  let w := ticks (exec epoch) (S (List.length calls))
             (flakyRun ev data rand (registerAll ls)) in
  eventCount (state w)
  = List.length (filter (fun l => delivers (Deliver l data))
                   (matching ev (registerAll ls))).
Proof.
  intros Hpos calls w.
  destruct (flaky_final epoch Hpos ls ev data rand) as (_ & _ & _ & Hc).
  fold calls in Hc. fold w in Hc. rewrite Hc.
  unfold calls, emit. apply withDelays_delivering.
Qed.

Lemma every_delivery_counted_in_the_end_witness :
  0 < 1700000000000 /\
  let calls := emit "test-event" testData (fun i => 119 - Z.of_nat i)
                 registered in
  let w := ticks (exec 1700000000000) (S (List.length calls))
             (flakyRun "test-event" testData (fun i => 119 - Z.of_nat i)
                registered) in
  eventCount (state w)
  = List.length (filter (fun l => delivers (Deliver l testData))
                   (matching "test-event" registered)).
Proof.
  split; [reflexivity |].
  exact (every_delivery_counted_in_the_end 1700000000000
           [{| event := "test-event"; callback := noop |};
            {| event := "test-event"; callback := noop |};
            {| event := "test-event"; callback := noop |}]
           "test-event" testData (fun i => 119 - Z.of_nat i) eq_refl).
Defined.

Lemma fixed_queue_delivers (s : Vars) (ev : string) (data : value)
    (rand : nat -> Z) :
  Forall (fun l => delivers (DeliverResolve l data) = true) (matching ev s) ->
  Forall (fun t => delivers (cb t) = true) (queue (fixedRun ev data rand s)).
Proof.
  intro Hall. unfold fixedRun, boot. cbn [queue].
  apply schedule_Forall; [| constructor].
  apply withDelays_delivers. exact Hall.
Qed.

(** X10.  Fixed form of the test, any registrations whose listeners for
    the event all return: the test completes with the last delivery and
    not before, whatever the delays; every listener has then been
    delivered to once, and the expectations pass exactly when there are
    three of them. *)
Theorem awaited_emit_counts_every_listener (epoch : Z) (ls : list Listener)
    (ev : string) (data : value) (rand : nat -> Z) :
  0 < epoch ->
  Forall (fun l => delivers (DeliverResolve l data) = true)
    (matching ev (registerAll ls)) ->
  let n := List.length (matching ev (registerAll ls)) in
  let run := fixedRun ev data rand (registerAll ls) in
  completed (state (ticks (exec epoch) n run)) = true /\
  eventCount (state (ticks (exec epoch) n run)) = n /\
  (failures (state (ticks (exec epoch) n run)) = [] <-> n = 3%nat) /\
  (forall k, (k < n)%nat ->
     completed (state (ticks (exec epoch) k run)) = false).
Proof.
  intros Hpos Hall n run.
  destruct (fixedRun_queue (registerAll ls) ev data rand) as [Hlen _].
  fold run in Hlen. fold n in Hlen.
  destruct n as [| m] eqn:En.
  - (* no listener: [Promise.all([])] *)
    assert (Hst : state run =
              expectAndFinish
                {| listeners := listeners (registerAll ls);
                   eventCount := eventCount (registerAll ls);
                   lastEventTime := lastEventTime (registerAll ls);
                   unresolved := 0;
                   failures := failures (registerAll ls);
                   completed := completed (registerAll ls);
                   escaped := escaped (registerAll ls) |}).
    { subst run. unfold fixedRun, boot. cbn [state].
      unfold emitAsync. rewrite length_withDelays.
      fold n. rewrite En. reflexivity. }
    destruct (registerAll_from ls initial) as (_ & Hc & Ht & _ & Hf & _).
    cbn zeta in Hc, Ht, Hf. fold (registerAll ls) in Hc, Ht, Hf.
    cbn [ticks]. rewrite Hst. unfold expectAndFinish, failed.
    cbn [completed eventCount failures lastEventTime].
    rewrite Hc, Ht, Hf. cbn.
    split; [reflexivity | split; [reflexivity | split]].
    + split; discriminate.
    + intros k Hk. lia.
  - pose proof (fixed_queue_delivers (registerAll ls) ev data rand Hall)
      as Hdel. fold run in Hdel.
    destruct (fixed_last epoch Hpos ls ev data rand) as (_ & Hd & He & Hf).
    { fold run. lia. }
    { exact Hdel. }
    fold run in Hd, He, Hf. rewrite Hlen in Hd, He, Hf.
    split; [exact Hd | split; [exact He | split]].
    + rewrite Hf. destruct (Nat.eqb_spec (S m) 3) as [H3 | H3].
      * split; [intros _; exact H3 | reflexivity].
      * split; [discriminate | intro; contradiction].
    + intros k Hk.
      destruct (fixed_pending epoch ls ev data rand k) as (_ & _ & Hc & _).
      * fold run. lia.
      * fold run. rewrite Hlen.
        pose proof (filter_firstn_le (fun t => delivers (cb t)) k (queue run))
          as [H1 _]. lia.
      * exact Hc.
Qed.

Lemma awaited_emit_counts_every_listener_witness :
  0 < 1700000000000 /\
  Forall (fun l => delivers (DeliverResolve l testData) = true)
    (matching "test-event" (registerAll
       [{| event := "test-event"; callback := noop |};
        {| event := "other"; callback := fun _ => Throw TypeError |}])) /\
  let n := List.length (matching "test-event" (registerAll
       [{| event := "test-event"; callback := noop |};
        {| event := "other"; callback := fun _ => Throw TypeError |}])) in
  let run := fixedRun "test-event" testData (fun _ => 119) (registerAll
       [{| event := "test-event"; callback := noop |};
        {| event := "other"; callback := fun _ => Throw TypeError |}]) in
  completed (state (ticks (exec 1700000000000) n run)) = true /\
  eventCount (state (ticks (exec 1700000000000) n run)) = n /\
  (failures (state (ticks (exec 1700000000000) n run)) = [] <-> n = 3%nat) /\
  (forall k, (k < n)%nat ->
     completed (state (ticks (exec 1700000000000) k run)) = false).
Proof.
  assert (Hall : Forall (fun l => delivers (DeliverResolve l testData) = true)
    (matching "test-event" (registerAll
       [{| event := "test-event"; callback := noop |};
        {| event := "other"; callback := fun _ => Throw TypeError |}]))).
  { constructor; [reflexivity | constructor]. }
  split; [reflexivity | split; [exact Hall |]].
  exact (awaited_emit_counts_every_listener 1700000000000 _ "test-event"
           testData (fun _ => 119) eq_refl Hall).
Defined.

(** X11.  Fixed form of the test as written (three listeners
    [() => {}]): whatever the three delays, the test completes with the
    third delivery and not before, [eventCount] is then 3 and both
    expectations pass. *)
Theorem fixed_emitter_test_always_passes (epoch : Z) (rand : nat -> Z) :
  0 < epoch ->
  let run := fixedRun "test-event" testData rand registered in
  completed (state (ticks (exec epoch) 3 run)) = true /\
  eventCount (state (ticks (exec epoch) 3 run)) = 3%nat /\
  failures (state (ticks (exec epoch) 3 run)) = [] /\
  (forall k, (k < 3)%nat ->
     completed (state (ticks (exec epoch) k run)) = false).
Proof.
  intros Hpos run.
  set (ls := [{| event := "test-event"; callback := noop |};
              {| event := "test-event"; callback := noop |};
              {| event := "test-event"; callback := noop |}]).
  assert (Hreg : registered = registerAll ls) by reflexivity.
  assert (Hlen : List.length (queue run) = 3%nat).
  { subst run. rewrite Hreg.
    rewrite (proj1 (fixedRun_queue _ _ _ _)). reflexivity. }
  assert (Hdel : Forall (fun t => delivers (cb t) = true) (queue run)).
  { subst run. apply fixed_queue_delivers.
    repeat constructor. }
  destruct (fixed_last epoch Hpos ls "test-event" testData rand)
    as (_ & Hd & He & Hf).
  { rewrite <- Hreg. fold run. lia. }
  { rewrite <- Hreg. exact Hdel. }
  rewrite <- Hreg in Hd, He, Hf. fold run in Hd, He, Hf.
  rewrite Hlen in Hd, He, Hf.
  split; [exact Hd | split; [exact He | split; [exact Hf |]]].
  intros k Hk.
  destruct (fixed_pending epoch ls "test-event" testData rand k)
    as (_ & _ & Hc & _).
  - rewrite <- Hreg. fold run. lia.
  - rewrite <- Hreg. fold run. rewrite Hlen.
    pose proof (filter_firstn_le (fun t => delivers (cb t)) k (queue run))
      as [H1 _]. lia.
  - rewrite <- Hreg in Hc. exact Hc.
Qed.

Lemma fixed_emitter_test_always_passes_witness :
  0 < 1700000000000 /\
  let run := fixedRun "test-event" testData (fun i => 119 - 40 * Z.of_nat i)
               registered in
  completed (state (ticks (exec 1700000000000) 3 run)) = true /\
  eventCount (state (ticks (exec 1700000000000) 3 run)) = 3%nat /\
  failures (state (ticks (exec 1700000000000) 3 run)) = [] /\
  (forall k, (k < 3)%nat ->
     completed (state (ticks (exec 1700000000000) k run)) = false).
Proof.
  split; [reflexivity |].
  exact (fixed_emitter_test_always_passes 1700000000000
           (fun i => 119 - 40 * Z.of_nat i) eq_refl).
Defined.

(** X12.  Fixed form of the test, any registrations: when the listener
    of some delivery throws, its promise is never resolved and the test
    never completes, however long the queue runs. *)
Theorem awaited_emit_hangs_on_throwing_listener (epoch : Z)
    (ls : list Listener) (ev : string) (data : value) (rand : nat -> Z)
    (l : Listener) :
  In l (matching ev (registerAll ls)) ->
  delivers (DeliverResolve l data) = false ->
  forall k,
    completed (state (ticks (exec epoch) k
                        (fixedRun ev data rand (registerAll ls)))) = false.
Proof.
  intros Hin Hthrow k.
  apply fixed_stuck.
  set (calls := emitAsync ev data rand (registerAll ls)).
  assert (Hq : queue (fixedRun ev data rand (registerAll ls))
               = schedule 0 calls []) by reflexivity.
  rewrite Hq, length_schedule, filter_length_schedule.
  cbn [filter List.length]. rewrite !Nat.add_0_r.
  rewrite <- (length_map (timerOf 0) calls).
  destruct (withDelays_In (fun l0 => DeliverResolve l0 data) rand 0 _ l Hin)
    as [d Hd].
  apply (filter_length_lt _ _ (timerOf 0 (d, DeliverResolve l data))).
  - apply in_map. exact Hd.
  - exact Hthrow.
Qed.

Lemma awaited_emit_hangs_on_throwing_listener_witness :
  In {| event := "test-event"; callback := fun _ => Throw TypeError |}
     (matching "test-event" (registerAll
        [{| event := "test-event"; callback := noop |};
         {| event := "test-event"; callback := fun _ => Throw TypeError |}])) /\
  delivers (DeliverResolve
     {| event := "test-event"; callback := fun _ => Throw TypeError |}
     testData) = false /\
  forall k,
    completed (state (ticks (exec 1700000000000) k
      (fixedRun "test-event" testData (fun _ => 20) (registerAll
        [{| event := "test-event"; callback := noop |};
         {| event := "test-event"; callback := fun _ => Throw TypeError |}]))))
    = false.
Proof.
  assert (Hin :
    In {| event := "test-event"; callback := fun _ => Throw TypeError |}
     (matching "test-event" (registerAll
        [{| event := "test-event"; callback := noop |};
         {| event := "test-event";
            callback := fun _ => Throw TypeError |}]))).
  { right. left. reflexivity. }
  split; [exact Hin | split; [reflexivity |]].
  exact (awaited_emit_hangs_on_throwing_listener 1700000000000 _ "test-event"
           testData (fun _ => 20) _ Hin eq_refl).
Defined.

End EmitterTheorems.

(** ** Test 4: the DOM update *)

(** X13.  Test 4: the check at 150 ms completes the test; its four
    expectations all pass when the delay drawn for the update is at most
    150 ms and all fail otherwise; in both cases the update has been
    made once the queue has run. *)
Theorem dom_check_all_or_nothing (delay : Z) :
  let s := EventLoop.state
             (EventLoop.ticks DomUpdate.exec 2 (DomUpdate.test delay)) in
  EventLoop.queue
    (EventLoop.ticks DomUpdate.exec 2 (DomUpdate.test delay)) = [] /\
  DomUpdate.completed s = true /\
  DomUpdate.failures s =
    (if delay <=? 150 then []
     else ["style.display"; "innerHTML"; "classList.add";
           "domUpdateComplete"]%string) /\
  DomUpdate.domUpdateComplete s = true /\
  DomUpdate.innerHTML s = "Updated content"%string /\
  lookup "display" (DomUpdate.style s) = VString "block".
Proof.
  unfold DomUpdate.test, EventLoop.boot, EventLoop.schedule.
  cbn [fold_left EventLoop.timerOf fst snd EventLoop.enqueue EventLoop.due].
  rewrite !Z.add_0_l.
  change (Z.max 0 150) with 150.
  destruct (Z.ltb_spec 150 (Z.max 0 delay)) as [Hlate | Hearly];
    destruct (Z.leb_spec delay 150) as [Hle | Hgt]; try lia;
    repeat split.
Qed.

(** ** Test 3: the overlapping operations *)

(** X14.  Test 3, for delays in the ranges they are drawn from: the three
    operations all run, [results] gets its three entries in the order of
    their times, and the test function gets past [Promise.all]; there
    its first statement calls [toHaveLength], which is no matcher of the
    framework, so the function ends with a TypeError whatever the order
    of the operations, and none of its expectations is ever evaluated. *)
Theorem overlap_test_throws_at_first_matcher (epoch d1 d2 d3 : Z) :
  50 <= d1 < 150 -> 40 <= d2 < 160 -> 30 <= d3 < 110 ->
  let s := EventLoop.state
             (EventLoop.ticks (Overlap.exec epoch) 3
                (Overlap.test epoch d1 d2 d3)) in
  EventLoop.queue
    (EventLoop.ticks (Overlap.exec epoch) 3
       (Overlap.test epoch d1 d2 d3)) = [] /\
  Overlap.completed
    (EventLoop.state
       (EventLoop.ticks (Overlap.exec epoch) 2
          (Overlap.test epoch d1 d2 d3))) = false /\
  Overlap.completed s = true /\
  Overlap.thrown s = Some TypeError /\
  Overlap.failures s = [] /\
  List.length (Overlap.results s) = 3%nat /\
  StronglySorted Z.le (map snd (Overlap.results s)) /\
  (map fst (Overlap.results s) = ["third"; "first"; "second"]%string
   <-> d3 < d1 /\ d1 <= d2).
Proof.
  intros H1 H2 H3.
  unfold Overlap.test, EventLoop.boot, EventLoop.schedule.
  cbn [fold_left]. unfold EventLoop.timerOf. cbn [fst snd].
  rewrite !Z.add_0_l.
  rewrite (Z.max_r 0 d1), (Z.max_r 0 d2), (Z.max_r 0 d3) by lia.
  cbn [EventLoop.enqueue EventLoop.due].
  destruct (Z.ltb_spec d2 d1); cbn [EventLoop.enqueue EventLoop.due];
    destruct (Z.ltb_spec d3 d1); cbn [EventLoop.enqueue EventLoop.due];
    destruct (Z.ltb_spec d3 d2); cbn [EventLoop.enqueue EventLoop.due];
    try lia;
    cbn [EventLoop.ticks EventLoop.tick EventLoop.queue EventLoop.clock
         EventLoop.state EventLoop.cb EventLoop.due Overlap.exec
         Overlap.unresolved Overlap.results Overlap.startTime
         Overlap.failures Overlap.thrown Overlap.completed
         Nat.pred Nat.eqb EventLoop.schedule fold_left app];
    change (Overlap.afterAll ?x) with (Overlap.finish (Some TypeError) x);
    cbv [Overlap.finish
         Overlap.results Overlap.failures Overlap.thrown Overlap.completed
         Overlap.startTime Overlap.unresolved List.length
         fst snd app map];
    (split; [reflexivity |]); (split; [reflexivity |]);
    (split; [reflexivity |]); (split; [reflexivity |]);
    (split; [reflexivity |]); (split; [reflexivity |]);
    (split; [repeat constructor; lia |]);
    (split; [intro Hnames; try discriminate Hnames; lia
            | intro Hord; try reflexivity; lia]).
Qed.

Lemma overlap_test_throws_at_first_matcher_witness :
  50 <= 60 < 150 /\ 40 <= 70 < 160 /\ 30 <= 35 < 110 /\
  let s := EventLoop.state
             (EventLoop.ticks (Overlap.exec 1700000000000) 3
                (Overlap.test 1700000000000 60 70 35)) in
  EventLoop.queue
    (EventLoop.ticks (Overlap.exec 1700000000000) 3
       (Overlap.test 1700000000000 60 70 35)) = [] /\
  Overlap.completed
    (EventLoop.state
       (EventLoop.ticks (Overlap.exec 1700000000000) 2
          (Overlap.test 1700000000000 60 70 35))) = false /\
  Overlap.completed s = true /\
  Overlap.thrown s = Some TypeError /\
  Overlap.failures s = [] /\
  List.length (Overlap.results s) = 3%nat /\
  StronglySorted Z.le (map snd (Overlap.results s)) /\
  (map fst (Overlap.results s) = ["third"; "first"; "second"]%string
   <-> 35 < 60 /\ 60 <= 70).
Proof.
  split; [lia | split; [lia | split; [lia |]]].
  apply (overlap_test_throws_at_first_matcher 1700000000000 60 70 35); lia.
Defined.

(** ** Test 1: the timing check *)

Lemma race_exec_timing (openmct : value) (now : Z) (s : Race.Vars) :
  Race.exec openmct Race.TimingCheck now s =
  ({| Race.initializationComplete := Race.initializationComplete s;
      Race.componentCheckComplete := Race.componentCheckComplete s;
      Race.log := Race.log s ++
                  Race.timingEvents (Race.initializationComplete s)
                    (Race.componentCheckComplete s)
                    (Race.doneCalled (Race.log s)) |}, []).
Proof.
  unfold Race.timingEvents. cbn [Race.exec].
  unfold Race.expect, Race.doneCalled.
  destruct (existsb Race.isDone (Race.log s)) eqn:Hdone.
  - rewrite Hdone, app_nil_r. destruct s; reflexivity.
  - unfold Race.record.
    cbn [Race.log Race.initializationComplete Race.componentCheckComplete].
    rewrite existsb_app, Hdone.
    destruct (Race.initializationComplete s); cbn [existsb Race.isDone orb];
      rewrite <- app_assoc; reflexivity.
Qed.

Lemma race_exec_component (openmct : value) (now : Z) (s : Race.Vars) :
  Race.doneCalled (Race.log s) = false ->
  Race.exec openmct Race.ComponentCheck now s =
  ({| Race.initializationComplete := Race.initializationComplete s;
      Race.componentCheckComplete := true;
      Race.log := Race.log s ++ Race.componentEvents openmct |}, []).
Proof.
  intro Hnot.
  unfold Race.componentEvents. cbn [Race.exec].
  destruct (getProp openmct "components") as [c | e];
    [destruct (getProp c "ObjectView") as [o | e] |];
    unfold Race.expect, Race.record;
    cbn [fst Race.log Race.initial Race.initializationComplete
         Race.componentCheckComplete app];
    unfold Race.doneCalled in *; rewrite ?Hnot;
    cbn [existsb orb app Race.log];
    try (destruct (toBeDefined c));
    cbn [Race.log Race.isDone existsb orb];
    rewrite ?existsb_app, ?Hnot; cbn [existsb Race.isDone orb app Race.log];
    rewrite <- ?app_assoc; reflexivity.
Qed.

(** The events of the whole test, by the delay drawn. *)
Lemma race_log (openmct : value) (delay : Z) :
  50 <= delay < 200 ->
  Race.log (EventLoop.state
              (EventLoop.ticks (Race.exec openmct) 3 (Race.test delay))) =
  if delay <? 90
  then Race.componentEvents openmct ++
       Race.timingEvents true true (Race.doneCalled (Race.componentEvents openmct))
  else Race.timingEvents (delay <=? 100) false false ++
       Race.componentEvents openmct.
Proof.
  intro Hrange.
  unfold Race.test, EventLoop.boot, EventLoop.schedule.
  cbn [fold_left]. unfold EventLoop.timerOf. cbn [fst snd].
  rewrite !Z.add_0_l, (Z.max_r 0 delay) by lia.
  change (Z.max 0 100) with 100.
  cbn [EventLoop.enqueue EventLoop.due].
  destruct (Z.ltb_spec 100 delay) as [Hlate | Hearly].
  - (* the timing check runs first *)
    destruct (Z.ltb_spec delay 90); [lia |].
    destruct (Z.leb_spec delay 100); [lia |].
    cbn [EventLoop.ticks]. unfold EventLoop.tick at 3.
    cbn [EventLoop.queue EventLoop.clock EventLoop.state EventLoop.cb
         EventLoop.due].
    rewrite race_exec_timing.
    cbn [EventLoop.schedule fold_left Race.log Race.initial
         Race.initializationComplete Race.componentCheckComplete
         Race.doneCalled existsb app].
    unfold EventLoop.tick at 2.
    cbn [EventLoop.queue EventLoop.clock EventLoop.state EventLoop.cb
         EventLoop.due Race.exec EventLoop.schedule fold_left
         EventLoop.enqueue].
    unfold EventLoop.tick.
    cbn [EventLoop.queue EventLoop.clock EventLoop.state EventLoop.cb
         EventLoop.due EventLoop.timerOf snd].
    rewrite race_exec_component by reflexivity. reflexivity.
  - cbn [EventLoop.ticks]. unfold EventLoop.tick at 3.
    cbn [EventLoop.queue EventLoop.clock EventLoop.state EventLoop.cb
         EventLoop.due Race.exec EventLoop.schedule fold_left].
    unfold EventLoop.timerOf. cbn [fst snd EventLoop.enqueue EventLoop.due].
    rewrite (Z.max_r 0 delay) by lia. change (Z.max 0 10) with 10.
    destruct (Z.leb_spec delay 100); [| lia].
    destruct (Z.ltb_spec (delay + 10) 100) as [Hsoon | Hlater];
      destruct (Z.ltb_spec delay 90); try lia.
    + (* the component check runs before the timing check *)
      unfold EventLoop.tick at 2.
      cbn [EventLoop.queue EventLoop.clock EventLoop.state EventLoop.cb
           EventLoop.due].
      rewrite race_exec_component by reflexivity.
      cbn [EventLoop.schedule fold_left].
      unfold EventLoop.tick.
      cbn [EventLoop.queue EventLoop.clock EventLoop.state EventLoop.cb
           EventLoop.due].
      rewrite race_exec_timing.
      cbn [EventLoop.state Race.log Race.initial
           Race.initializationComplete Race.componentCheckComplete app].
      reflexivity.
    + unfold EventLoop.tick at 2.
      cbn [EventLoop.queue EventLoop.clock EventLoop.state EventLoop.cb
           EventLoop.due].
      rewrite race_exec_timing.
      cbn [EventLoop.schedule fold_left Race.log Race.initial
           Race.initializationComplete Race.componentCheckComplete
           Race.doneCalled existsb app].
      unfold EventLoop.tick.
      cbn [EventLoop.queue EventLoop.clock EventLoop.state EventLoop.cb
           EventLoop.due].
      rewrite race_exec_component by reflexivity. reflexivity.
Qed.

(** The three timers are all the test ever sets. *)
Lemma race_queue (openmct : value) (delay : Z) :
  50 <= delay < 200 ->
  EventLoop.queue
    (EventLoop.ticks (Race.exec openmct) 3 (Race.test delay)) = [].
Proof.
  intro Hrange.
  unfold Race.test, EventLoop.boot, EventLoop.schedule.
  cbn [fold_left]. unfold EventLoop.timerOf. cbn [fst snd].
  rewrite !Z.add_0_l, (Z.max_r 0 delay) by lia.
  change (Z.max 0 100) with 100.
  cbn [EventLoop.enqueue EventLoop.due].
  destruct (Z.ltb_spec 100 delay) as [Hlate | Hearly].
  - (* the timing check runs first *)
    cbn [EventLoop.ticks]. unfold EventLoop.tick at 3.
    cbn [EventLoop.queue EventLoop.clock EventLoop.state EventLoop.cb
         EventLoop.due].
    rewrite race_exec_timing.
    cbn [EventLoop.schedule fold_left Race.log Race.initial
         Race.initializationComplete Race.componentCheckComplete
         Race.doneCalled existsb app].
    unfold EventLoop.tick at 2.
    cbn [EventLoop.queue EventLoop.clock EventLoop.state EventLoop.cb
         EventLoop.due Race.exec EventLoop.schedule fold_left
         EventLoop.enqueue].
    unfold EventLoop.tick.
    cbn [EventLoop.queue EventLoop.clock EventLoop.state EventLoop.cb
         EventLoop.due EventLoop.timerOf snd].
    rewrite race_exec_component by reflexivity. reflexivity.
  - cbn [EventLoop.ticks]. unfold EventLoop.tick at 3.
    cbn [EventLoop.queue EventLoop.clock EventLoop.state EventLoop.cb
         EventLoop.due Race.exec EventLoop.schedule fold_left].
    unfold EventLoop.timerOf. cbn [fst snd EventLoop.enqueue EventLoop.due].
    rewrite (Z.max_r 0 delay) by lia. change (Z.max 0 10) with 10.
    destruct (Z.ltb_spec (delay + 10) 100) as [Hsoon | Hlater].
    + (* the component check runs before the timing check *)
      unfold EventLoop.tick at 2.
      cbn [EventLoop.queue EventLoop.clock EventLoop.state EventLoop.cb
           EventLoop.due].
      rewrite race_exec_component by reflexivity.
      cbn [EventLoop.schedule fold_left].
      unfold EventLoop.tick.
      cbn [EventLoop.queue EventLoop.clock EventLoop.state EventLoop.cb
           EventLoop.due].
      rewrite race_exec_timing. reflexivity.
    + unfold EventLoop.tick at 2.
      cbn [EventLoop.queue EventLoop.clock EventLoop.state EventLoop.cb
           EventLoop.due].
      rewrite race_exec_timing.
      cbn [EventLoop.schedule fold_left Race.log Race.initial
           Race.initializationComplete Race.componentCheckComplete
           Race.doneCalled existsb app].
      unfold EventLoop.tick.
      cbn [EventLoop.queue EventLoop.clock EventLoop.state EventLoop.cb
           EventLoop.due].
      rewrite race_exec_component by reflexivity. reflexivity.
Qed.

Lemma component_events_cases (openmct : value) :
  (exists e, Race.componentEvents openmct = [Race.Threw e] /\
             componentsExpectations openmct = Throw e) \/
  (exists (e : error) (b : bool), Race.componentEvents openmct
               = [if b then Race.Passed "openmct.components"
                  else Race.Failed "openmct.components"; Race.Threw e] /\
               componentsExpectations openmct = Throw e) \/
  (exists b1 b2 : bool, Race.componentEvents openmct
                 = [if b1 then Race.Passed "openmct.components"
                    else Race.Failed "openmct.components";
                    if b2 then Race.Passed "openmct.components.ObjectView"
                    else Race.Failed "openmct.components.ObjectView";
                    Race.Done] /\
                 componentsExpectations openmct = Normal (b1 && b2)).
Proof.
  unfold Race.componentEvents, componentsExpectations. cbn [Race.exec].
  destruct (getProp openmct "components") as [c | e].
  - destruct (getProp c "ObjectView") as [o | e].
    + right. right. exists (toBeDefined c), (toBeDefined o).
      destruct (toBeDefined c); split; reflexivity.
    + right. left. exists e, (toBeDefined c). split; reflexivity.
  - left. exists e. split; reflexivity.
Qed.

(** X15.  Test 1, for a delay in the range it is drawn from: the timing
    check at 100 ms records a failed expectation on
    [componentCheckComplete] exactly when the delay is at least 90 ms,
    and on [initializationComplete] exactly when it is above 100 ms.
    In a run that calls [done()] the expectation on
    [componentCheckComplete] never passes, and the one on
    [initializationComplete] passes exactly when the delay is between 90
    and 100 ms: when the delay is below 90 ms the timing check runs
    after [done()] has ended the test and adds nothing to its record,
    which then consists of the events of the component check. *)
Theorem race_timing_check (openmct : value) (delay : Z) :
  50 <= delay < 200 ->
  let l := Race.log (EventLoop.state
             (EventLoop.ticks (Race.exec openmct) 3 (Race.test delay))) in
  (In (Race.Failed "componentCheckComplete") l <-> 90 <= delay) /\
  (In (Race.Failed "initializationComplete") l <-> 100 < delay) /\
  (In Race.Done l ->
   ~ In (Race.Passed "componentCheckComplete") l /\
   (In (Race.Passed "initializationComplete") l <-> 90 <= delay <= 100) /\
   (l = Race.componentEvents openmct <-> delay < 90)).
Proof.
  intros Hrange l. subst l. rewrite (race_log openmct delay Hrange).
  unfold Race.timingEvents.
  destruct (component_events_cases openmct)
    as [(e & Heq & _) | [(e & b & Heq & _) | (b1 & b2 & Heq & _)]];
    rewrite Heq; clear Heq;
    repeat match goal with bb : bool |- _ => destruct bb end;
    destruct (Z.ltb_spec delay 90) as [Hsoon | Hlate];
    destruct (Z.leb_spec delay 100) as [Hle | Hgt];
    cbn [Race.doneCalled existsb Race.isDone orb app In];
    intuition (try congruence; try lia).
Qed.

Lemma race_timing_check_witness :
  50 <= 60 < 200 /\
  let l := Race.log (EventLoop.state
             (EventLoop.ticks (Race.exec readyApp) 3 (Race.test 60))) in
  (In (Race.Failed "componentCheckComplete") l <-> 90 <= 60) /\
  (In (Race.Failed "initializationComplete") l <-> 100 < 60) /\
  (In Race.Done l ->
   ~ In (Race.Passed "componentCheckComplete") l /\
   (In (Race.Passed "initializationComplete") l <-> 90 <= 60 <= 100) /\
   (l = Race.componentEvents readyApp <-> 60 < 90)).
Proof.
  split; [lia |].
  apply (race_timing_check readyApp 60). lia.
Defined.

(** X16.  Test 1, for a delay in the range it is drawn from: once its
    three timers have run none is left, and [done()] has been called
    exactly when neither member access of the component check throws,
    that is unless [openmct] or [openmct.components] is [undefined] or
    [null]; otherwise the test never completes. *)
Theorem race_done_iff (openmct : value) (delay : Z) :
  50 <= delay < 200 ->
  EventLoop.queue
    (EventLoop.ticks (Race.exec openmct) 3 (Race.test delay)) = [] /\
  (In Race.Done
      (Race.log (EventLoop.state
         (EventLoop.ticks (Race.exec openmct) 3 (Race.test delay))))
   <-> exists b, componentsExpectations openmct = Normal b).
Proof.
  intro Hrange. split; [exact (race_queue openmct delay Hrange) |].
  rewrite (race_log openmct delay Hrange).
  assert (Hcomp : In Race.Done (Race.componentEvents openmct) <->
                  exists b, componentsExpectations openmct = Normal b).
  { destruct (component_events_cases openmct)
      as [(e & Hev & Hex) | [(e & b & Hev & Hex) | (b1 & b2 & Hev & Hex)]];
      rewrite Hev, Hex.
    - split; [intros [H | []]; discriminate H | intros [b H]; discriminate H].
    - split; [| intros [b' H]; discriminate H].
      intros [H | [H | []]]; [destruct b |]; discriminate H.
    - split; [intros _; eexists; reflexivity |].
      intros _. right. right. left. reflexivity. }
  rewrite <- Hcomp.
  destruct (delay <? 90).
  - split.
    + intro Hin. apply in_app_or in Hin. destruct Hin as [Hin | Hin];
        [exact Hin |].
      unfold Race.timingEvents in Hin.
      destruct (Race.doneCalled (Race.componentEvents openmct));
        cbn [In] in Hin; [destruct Hin |].
      destruct Hin as [H | [H | []]]; discriminate H.
    + intro Hin. apply in_or_app. left. exact Hin.
  - split.
    + intro Hin. unfold Race.timingEvents in Hin. cbn [app In] in Hin.
      destruct Hin as [H | [H | Hin]]; [| discriminate H | exact Hin].
      destruct (delay <=? 100); discriminate H.
    + intro Hin. apply in_or_app. right. exact Hin.
Qed.

Lemma race_done_iff_witness :
  50 <= 120 < 200 /\
  EventLoop.queue
    (EventLoop.ticks (Race.exec bareApp) 3 (Race.test 120)) = [] /\
  (In Race.Done
      (Race.log (EventLoop.state
         (EventLoop.ticks (Race.exec bareApp) 3 (Race.test 120))))
   <-> exists b, componentsExpectations bareApp = Normal b).
Proof.
  split; [lia |].
  apply (race_done_iff bareApp 120). lia.
Defined.
(** ** A burst of timers and a check *)

Section BurstFacts.

Context {St Cb : Type}.
Variable exec : Cb -> Z -> St -> St * list (Z * Cb).
Hypothesis exec_quiet : forall c, EventLoop.quiet exec c.

(** A test body that makes the [setTimeout] calls [calls] and then one
    for a check: the calls due by the time of the check run, then the
    check, then the rest. *)
Lemma burst_check_run (s : St) (calls : list (Z * Cb)) (chk : Z * Cb) :
  let Q := EventLoop.schedule 0 calls [] in
  let chkT := EventLoop.timerOf 0 chk in
  let early := filter (fun u => EventLoop.due u <=? EventLoop.due chkT) Q in
  let late := filter (fun u => EventLoop.due chkT <? EventLoop.due u) Q in
  let r := EventLoop.play exec late
             (EventLoop.play1 exec (EventLoop.play exec early (0, s)) chkT) in
  EventLoop.ticks exec (S (List.length calls))
    (EventLoop.boot s (calls ++ [chk])) =
  {| EventLoop.clock := fst r; EventLoop.queue := [];
     EventLoop.state := snd r |}.
Proof.
  intros Q chkT early late r.
  assert (Hqueue : EventLoop.queue (EventLoop.boot s (calls ++ [chk]))
                   = early ++ chkT :: late)
    by apply boot_check_queue.
  assert (Hlen : S (List.length calls)
                 = List.length (early ++ chkT :: late)).
  { rewrite <- Hqueue. unfold EventLoop.boot. cbn [EventLoop.queue].
    rewrite length_schedule, length_app. cbn [List.length]. lia. }
  assert (Hrun : EventLoop.boot s (calls ++ [chk])
                 = {| EventLoop.clock := 0;
                      EventLoop.queue := (early ++ chkT :: late) ++ [];
                      EventLoop.state := s |}).
  { rewrite app_nil_r, <- Hqueue. reflexivity. }
  rewrite Hlen, Hrun, ticks_play.
  - rewrite play_app. unfold EventLoop.play at 1 3. cbn [fold_left].
    reflexivity.
  - apply Forall_forall. intros t _. apply exec_quiet.
Qed.

Lemma in_enqueue (t u : EventLoop.Timer Cb) (q : list (EventLoop.Timer Cb)) :
  In t (EventLoop.enqueue u q) <-> t = u \/ In t q.
Proof.
  induction q as [| v q' IH]; cbn [EventLoop.enqueue].
  - cbn. intuition congruence.
  - destruct (EventLoop.due u <? EventLoop.due v); cbn [In] in *.
    + intuition congruence.
    + rewrite IH. intuition congruence.
Qed.

Lemma in_schedule (t : EventLoop.Timer Cb) (now : Z)
    (calls : list (Z * Cb)) (q : list (EventLoop.Timer Cb)) :
  In t (EventLoop.schedule now calls q) <->
  In t (map (EventLoop.timerOf now) calls) \/ In t q.
Proof.
  revert q. induction calls as [| call calls IH]; intro q.
  - cbn. intuition.
  - cbn [EventLoop.schedule fold_left map In].
    change (fold_left _ calls ?q0) with (EventLoop.schedule now calls q0).
    rewrite IH, in_enqueue. intuition congruence.
Qed.

End BurstFacts.


(** ** Test 5: creation and cleanup *)

Section LifecycleFacts.

Import EventLoop Lifecycle.

Context {Num : Type}.

Let fresh (ids : nat -> Num) (j : nat) : Obj Num :=
  {| id := ids j; data := Some (repeat "test data"%string 1000) |}.

Lemma createLoop_spec (count i : nat) (ids : nat -> Num) (delays : nat -> Z)
    (s : Vars Num) :
  List.length (store s) = i ->
  let r := createLoop count i ids delays s in
  objectsCreated (fst r) = (objectsCreated s + count)%nat /\
  objectsDestroyed (fst r) = objectsDestroyed s /\
  store (fst r) = store s ++ map (fresh ids) (seq i count) /\
  objects (fst r) = objects s ++ seq i count /\
  failures (fst r) = failures s /\
  completed (fst r) = completed s /\
  snd r = map (fun j => (delays j, Cleanup j)) (seq i count).
Proof.
  revert i s. induction count as [| c IH]; intros i s Hlen.
  - cbn. rewrite !app_nil_r. repeat split; lia.
  - cbn [createLoop createObject]. rewrite Hlen.
    match goal with
    | |- context [createLoop c (S i) ids delays ?s2] =>
        specialize (IH (S i) s2); destruct (createLoop c (S i) ids delays s2)
          as [s3 calls] eqn:E
    end.
    cbn [store objectsCreated objectsDestroyed objects failures completed
         fst snd] in IH |- *.
    destruct IH as (H1 & H2 & H3 & H4 & H5 & H6 & H7).
    { rewrite length_app. cbn [List.length]. lia. }
    rewrite H1, H2, H3, H4, H5, H6, H7.
    cbn [seq map]. rewrite <- !app_assoc. cbn [app].
    repeat split; lia.
Qed.

Lemma lifecycle_quiet (c : Closure) : quiet (@exec Num) c.
Proof.
  intros now s. destruct c; reflexivity.
Qed.

Let isCleanup (t : Timer Closure) : Prop :=
  match cb t with Cleanup _ => True | CheckCleanup => False end.

Let addrOf (t : Timer Closure) : nat :=
  match cb t with Cleanup a => a | CheckCleanup => 0 end.

Lemma play_cleanups (q : list (Timer Closure)) (c : Z) (s : Vars Num) :
  Forall isCleanup q ->
  let r := play exec q (c, s) in
  objectsCreated (snd r) = objectsCreated s /\
  objectsDestroyed (snd r) = (objectsDestroyed s + List.length q)%nat /\
  store (snd r) = fold_left (fun st t => clearData (addrOf t) st) q (store s) /\
  objects (snd r) = objects s /\
  failures (snd r) = failures s /\
  completed (snd r) = completed s.
Proof.
  intro Hq. revert c s.
  induction Hq as [| t q' Ht Hq' IH]; intros c s.
  - cbn. repeat split; lia.
  - unfold play. cbn [fold_left].
    change (fold_left (play1 exec) q' ?x) with (play exec q' x).
    destruct t as [d k]. unfold isCleanup in Ht. cbn [cb] in Ht.
    destruct k as [a |]; [| contradiction].
    unfold play1 at 1 2 3 4 5 6. cbn [fst snd due cb exec].
    match goal with
    | |- context [play exec q' (?c1, ?s1)] => specialize (IH c1 s1)
    end.
    cbn zeta in IH.
    cbn [objectsCreated objectsDestroyed store objects failures completed]
      in IH.
    destruct IH as (H1 & H2 & H3 & H4 & H5 & H6).
    cbn [List.length]. unfold addrOf at 2. cbn [cb].
    repeat split; try assumption. lia.
Qed.

Lemma nth_error_clearData (b a : nat) (st : list (Obj Num)) :
  nth_error (clearData b st) a =
  if Nat.eqb a b
  then option_map (fun o => {| id := id o; data := None |}) (nth_error st a)
  else nth_error st a.
Proof.
  revert a b. induction st as [| o rest IH]; intros a b.
  - destruct b, a; cbn; try destruct (Nat.eqb _ _); reflexivity.
  - destruct b as [| b]; destruct a as [| a]; cbn [clearData nth_error Nat.eqb];
      try reflexivity.
    apply IH.
Qed.

(** An object keeps its place and its [id] through the cleanups, and its
    [data] is [null] after its own cleanup or if it was before. *)
Lemma clear_fold (q : list (Timer Closure)) (st : list (Obj Num)) (a : nat)
    (o : Obj Num) :
  nth_error st a = Some o ->
  exists o',
    nth_error (fold_left (fun st' t => clearData (addrOf t) st') q st) a
    = Some o' /\
    id o' = id o /\
    (In a (map addrOf q) \/ data o = None -> data o' = None).
Proof.
  revert st o. induction q as [| t q' IH]; intros st o Hnth.
  - exists o. cbn. repeat split; [exact Hnth |].
    intros [[] | H]; exact H.
  - cbn [fold_left map In].
    pose proof (nth_error_clearData (addrOf t) a st) as Hc.
    rewrite Hnth in Hc. cbn [option_map] in Hc.
    destruct (Nat.eqb_spec a (addrOf t)) as [Heq | Hne].
    + destruct (IH _ _ Hc) as (o' & H1 & H2 & H3).
      exists o'. split; [exact H1 | split; [exact H2 |]].
      intros _. apply H3. right. reflexivity.
    + destruct (IH _ _ Hc) as (o' & H1 & H2 & H3).
      exists o'. split; [exact H1 | split; [exact H2 |]].
      intros [[Heq | Hin] | Hnone]; [congruence | |]; apply H3; auto.
Qed.

Lemma filter_split_length {A : Type} (f g : A -> bool) (l : list A) :
  (forall a, g a = negb (f a)) ->
  (List.length (filter f l) + List.length (filter g l))%nat = List.length l.
Proof.
  intro Hfg. induction l as [| a l' IH]; [reflexivity |].
  cbn [filter]. rewrite (Hfg a).
  destruct (f a); cbn [negb List.length]; lia.
Qed.

Lemma nth_error_seq0 (count a : nat) :
  (a < count)%nat -> nth_error (seq 0 count) a = Some a.
Proof.
  intro Ha.
  rewrite (nth_error_nth' (seq 0 count) 0%nat) by (rewrite length_seq; lia).
  rewrite seq_nth by lia. reflexivity.
Qed.

(** Test 5 with [count] rounds of the loop, run to the end. *)
Lemma lifecycle_final (count : nat) (ids : nat -> Num) (delays : nat -> Z) :
  let w := ticks exec (S count) (run count ids delays) in
  queue w = [] /\
  completed (state w) = true /\
  objectsCreated (state w) = count /\
  objectsDestroyed (state w) = count /\
  failures (state w) =
    expect (Nat.eqb (cleanedBy 100 count delays) 5) "objectsDestroyed"
      (expect (Nat.eqb count 5) "objectsCreated" []) /\
  (forall a, (a < count)%nat ->
     exists o, nth_error (store (state w)) a = Some o /\
               id o = ids a /\ data o = None).
Proof.
  intro w. subst w. unfold run.
  destruct (createLoop_spec count 0 ids delays initial eq_refl)
    as (Hc & Hd & Hst & Hobj & Hf & Hdone & Hcalls).
  cbn zeta in Hc, Hd, Hst, Hobj, Hf, Hdone, Hcalls.
  destruct (createLoop count 0 ids delays initial) as [s calls].
  cbn [fst snd initial objectsCreated objectsDestroyed store objects failures
       completed app Nat.add] in Hc, Hd, Hst, Hobj, Hf, Hdone, Hcalls.
  assert (Hlen : List.length calls = count).
  { rewrite Hcalls, length_map, length_seq. reflexivity. }
  pose proof (burst_check_run exec lifecycle_quiet s calls
                (100, CheckCleanup)) as Hrun.
  rewrite Hlen in Hrun. rewrite Hrun. clear Hrun.
  cbn zeta. cbn [queue state].
  set (Q := schedule 0 calls []).
  set (chkT := timerOf 0 (100, CheckCleanup)).
  set (early := filter (fun u => due u <=? due chkT) Q).
  set (late := filter (fun u => due chkT <? due u) Q).
  assert (HQ : Forall isCleanup Q).
  { apply schedule_Forall; [| constructor].
    rewrite Hcalls. apply Forall_forall. intros call Hin.
    apply in_map_iff in Hin. destruct Hin as (j & <- & _). exact I. }
  destruct (play_cleanups early 0 s (Forall_filter _ _ _ HQ))
    as (E1 & E2 & E3 & E4 & E5 & E6).
  cbn zeta in E1, E2, E3, E4, E5, E6.
  destruct (play exec early (0, s)) as [c1 s1].
  cbn [fst snd] in E1, E2, E3, E4, E5, E6.
  unfold play1. cbn [fst snd cb chkT timerOf exec].
  match goal with
  | |- context [play exec late (?c2, ?s2)] =>
      destruct (play_cleanups late c2 s2 (Forall_filter _ _ _ HQ))
        as (L1 & L2 & L3 & L4 & L5 & L6)
  end.
  cbn zeta in L1, L2, L3, L4, L5, L6.
  cbn [objectsCreated objectsDestroyed store objects failures completed]
    in L1, L2, L3, L4, L5, L6.
  assert (Hearly : List.length early = cleanedBy 100 count delays).
  { unfold early, Q. rewrite filter_length_schedule.
    cbn [filter List.length]. rewrite Nat.add_0_r.
    rewrite Hcalls, map_map, filter_map_length. reflexivity. }
  assert (Hall : (List.length early + List.length late)%nat = count).
  { unfold early, late. rewrite filter_split_length.
    - unfold Q. rewrite length_schedule. cbn [List.length]. lia.
    - intro u. apply Z.ltb_antisym. }
  split; [reflexivity |].
  split; [exact L6 |].
  split; [rewrite L1, E1; exact Hc |].
  split; [rewrite L2, E2, Hd; lia |].
  split.
  - rewrite L5, E1, E2, E5, Hc, Hd, Hf, Hearly. reflexivity.
  - intros a Ha. rewrite L3, E3, Hst.
    assert (Hnth : nth_error (map (fresh ids) (seq 0 count)) a
                   = Some (fresh ids a)).
    { rewrite nth_error_map, nth_error_seq0 by exact Ha. reflexivity. }
    assert (Hin : In (timerOf 0 (delays a, Cleanup a)) Q).
    { unfold Q. apply in_schedule. left. apply in_map. rewrite Hcalls.
      apply in_map_iff. exists a. split; [reflexivity |].
      apply in_seq. lia. }
    destruct (clear_fold early _ a _ Hnth) as (o1 & N1 & I1 & D1).
    destruct (clear_fold late _ a _ N1) as (o2 & N2 & I2 & D2).
    exists o2. split; [exact N2 | split; [rewrite I2, I1; reflexivity |]].
    apply D2.
    destruct (Z.leb_spec (due (timerOf 0 (delays a, Cleanup a))) (due chkT))
      as [Hle | Hgt].
    + right. apply D1. left.
      change a with (addrOf (timerOf 0 (delays a, Cleanup a))) at 1.
      apply in_map. apply filter_In. split; [exact Hin |].
      apply Z.leb_le. exact Hle.
    + left.
      change a with (addrOf (timerOf 0 (delays a, Cleanup a))) at 1.
      apply in_map. apply filter_In. split; [exact Hin |].
      apply Z.ltb_lt. exact Hgt.
Qed.

(** X17.  The creation loop of test 5 with [count] rounds: it counts
    [count] objects created, allocates them in order, each with the
    [id] drawn for it and an array of 1000 strings, pushes their
    references in order, and makes exactly one [setTimeout] call per
    object, for the cleanup of that object with the delay drawn for
    it. *)
Theorem creation_loop_makes_one_cleanup_each (count : nat)
    (ids : nat -> Num) (delays : nat -> Z) :
  let r := createLoop count 0 ids delays initial in
  objectsCreated (fst r) = count /\
  objectsDestroyed (fst r) = 0%nat /\
  store (fst r) =
    map (fun j => {| id := ids j;
                     data := Some (repeat "test data"%string 1000) |})
      (seq 0 count) /\
  objects (fst r) = seq 0 count /\
  snd r = map (fun j => (delays j, Cleanup j)) (seq 0 count).
Proof.
  destruct (createLoop_spec count 0 ids delays initial eq_refl)
    as (Hc & Hd & Hst & Hobj & _ & _ & Hcalls).
  cbn zeta in *. repeat split; assumption.
Qed.

(** X18.  Test 5 with [count] rounds of the loop, whatever the delays:
    once the queue has run, every object created has been cleaned up
    exactly once: [objectsDestroyed] equals [objectsCreated] equals
    [count], and each object still has its [id] and has [data] null. *)
Theorem every_object_is_cleaned (count : nat) (ids : nat -> Num)
    (delays : nat -> Z) :
  let w := ticks exec (S count) (run count ids delays) in
  queue w = [] /\
  objectsCreated (state w) = count /\
  objectsDestroyed (state w) = count /\
  (forall a, (a < count)%nat ->
     exists o, nth_error (store (state w)) a = Some o /\
               id o = ids a /\ data o = None).
Proof.
  destruct (lifecycle_final count ids delays) as (Hq & _ & Hc & Hd & _ & Hs).
  repeat split; assumption.
Qed.

(** X19.  Test 5 as written (five rounds): the check at 100 ms completes
    the test and always finds five objects created; its expectations
    pass exactly when each of the five cleanup delays drawn is at most
    100 ms. *)
Theorem lifecycle_test_passes_iff (ids : nat -> Num) (delays : nat -> Z) :
  let w := ticks exec 6 (run 5 ids delays) in
  completed (state w) = true /\
  ~ In "objectsCreated"%string (failures (state w)) /\
  (failures (state w) = [] <->
   delays 0%nat <= 100 /\ delays 1%nat <= 100 /\ delays 2%nat <= 100 /\
   delays 3%nat <= 100 /\ delays 4%nat <= 100).
Proof.
  destruct (lifecycle_final 5 ids delays) as (_ & Hdone & _ & _ & Hf & _).
  cbn zeta in *. split; [exact Hdone |].
  rewrite Hf. unfold cleanedBy, expect. cbn [seq filter Nat.eqb].
  destruct (Z.leb_spec (Z.max 0 (delays 0%nat)) 100);
    destruct (Z.leb_spec (Z.max 0 (delays 1%nat)) 100);
    destruct (Z.leb_spec (Z.max 0 (delays 2%nat)) 100);
    destruct (Z.leb_spec (Z.max 0 (delays 3%nat)) 100);
    destruct (Z.leb_spec (Z.max 0 (delays 4%nat)) 100);
    cbn [List.length Nat.eqb app In];
    (split; [intro Hin;
             repeat (destruct Hin as [Hin | Hin]; [discriminate Hin |]);
             exact Hin |]);
    (split; [intro Hnil; try discriminate Hnil; lia
            | intro Hle; try reflexivity; lia]).
Qed.

End LifecycleFacts.
